(** * Signal.breakpoint: a shallow embedding of [src/index.js]

    The module watches the viewport width and tells its subscribers when
    the width crosses one of the configured breakpoints.  The embedding
    follows the first (CommonJS/RequireJS) version of the file, lines
    1-233: the closure variables become the fields of a [State] record,
    every closure function becomes a function on [State], and the arrays
    that the closure shares with its callers live in an explicit store so
    that in-place sorting and aliasing are visible. *)

From stdpp Require Import gmap strings list fin_maps pretty sorting.
From Stdlib Require Import ZArith Lia Sorting.Sorted Sorting.Permutation.

Open Scope Z_scope.

(** ** JavaScript values

    Only three kinds of value ever reach [_currentBreakpoint] or a
    notification payload: [undefined] (the declared-but-unassigned
    variable, or an array read out of range), [null] (written by
    [_reset]) and numbers.  Numbers are integers: pixel widths and
    breakpoints. *)

Inductive jsval : Type :=
| JUndefined
| JNull
| JNum (n : Z).

#[global] Instance jsval_eq_dec : EqDecision jsval.
Proof. solve_decision. Defined.

(** [!v]: [undefined], [null] and [0] are falsy. *)
Definition js_not (v : jsval) : bool :=
  match v with
  | JUndefined | JNull => true
  | JNum n => n =? 0
  end.

(** ToNumber for the relational operators: [undefined] is NaN (every
    comparison false), [null] is 0. *)
Definition js_to_number (v : jsval) : option Z :=
  match v with
  | JUndefined => None
  | JNull => Some 0
  | JNum n => Some n
  end.

Definition js_le (a b : jsval) : bool :=
  match js_to_number a, js_to_number b with
  | Some x, Some y => x <=? y
  | _, _ => false
  end.

Definition js_lt (a b : jsval) : bool :=
  match js_to_number a, js_to_number b with
  | Some x, Some y => x <? y
  | _, _ => false
  end.

Definition js_ge (a b : jsval) : bool := js_le b a.

(** [a === b] on the values above. *)
Definition js_strict_eq (a b : jsval) : bool := bool_decide (a = b).

(** *** Number::toString on integers

    Below 2^53 every integer is a Number value and is printed with all
    its decimal digits.  From 2^53 on the Number value of an integer is
    the nearest double (ties to the even significand), printed with the
    fewest significant digits that still round to it, as a plain
    integer up to 21 digits and in exponent form beyond: [1e+21],
    [1.1805916207174113e+21]. *)

Definition nearest_double (x : Z) : Z :=
  if x <? 2 ^ 53 then x
  else
    let e := Z.log2 x - 52 in
    let m := x / 2 ^ e in
    let r := x mod 2 ^ e in
    let half := 2 ^ (e - 1) in
    let m' := if (half <? r) || ((r =? half) && Z.odd m) then m + 1 else m in
    m' * 2 ^ e.

(** Does the integer [c] round to the double [d] (at least 2^53)?  The
    bounds are the midpoints to the neighbouring doubles, doubled to
    stay in the integers, and belong to [d] when its significand is
    even. *)
Definition rounds_to (d c : Z) : bool :=
  let e := Z.log2 d - 52 in
  let m := d / 2 ^ e in
  let above := 2 ^ e in
  let below := if m =? 2 ^ 52 then 2 ^ (e - 1) else 2 ^ e in
  if Z.even m
  then (2 * d - below <=? 2 * c) && (2 * c <=? 2 * d + above)
  else (2 * d - below <? 2 * c) && (2 * c <? 2 * d + above).

Definition decimal_length (c : Z) : Z := Z.of_nat (String.length (pretty c)).

(** The integer with [k] significant digits, or the first larger [k]
    for which there is one, that rounds to [d] and is closest to it. *)
Fixpoint shortest_from (d : Z) (fuel : nat) (k : Z) : Z :=
  match fuel with
  | O => d
  | S fuel' =>
    let p := 10 ^ Z.max 0 (decimal_length d - k) in
    let lo := d / p * p in
    let hi := lo + p in
    match rounds_to d lo, rounds_to d hi with
    | true, true =>
      if d - lo <? hi - d then lo
      else if hi - d <? d - lo then hi
      else if Z.even (lo / p) then lo else hi
    | true, false => lo
    | false, true => hi
    | false, false => shortest_from d fuel' (k + 1)
    end
  end.

Fixpoint strip_zeros (fuel : nat) (c : Z) : Z :=
  match fuel with
  | O => c
  | S fuel' =>
    if (c mod 10 =? 0) && negb (c =? 0) then strip_zeros fuel' (c / 10) else c
  end.

Definition number_to_string_nonneg (x : Z) : string :=
  if x <? 2 ^ 53 then pretty x
  else
    let d := nearest_double x in
    if 2 ^ 1024 <=? d then "Infinity"
    else
      let c := shortest_from d 17 1 in
      let n := decimal_length c in
      if n <=? 21 then pretty c
      else
        match pretty (strip_zeros (Z.to_nat n) c) with
        | String a rest =>
          String a (match rest with EmptyString => "" | _ => "." +:+ rest end)
            +:+ "e+" +:+ pretty (n - 1)
        | EmptyString => ""
        end.

Definition number_to_string (n : Z) : string :=
  if n <? 0 then "-" +:+ number_to_string_nonneg (- n)
  else number_to_string_nonneg n.

(** ['text' + v]: string concatenation with a value. *)
Definition js_to_string (v : jsval) : string :=
  match v with
  | JUndefined => "undefined"
  | JNull => "null"
  | JNum n => number_to_string n
  end.

(** [arr[i]] for a possibly negative or too large index. *)
Definition arr_get (arr : list Z) (i : Z) : jsval :=
  if i <? 0 then JUndefined
  else match arr !! Z.to_nat i with
       | Some x => JNum x
       | None => JUndefined
       end.

(** ** [_numericSort]

    [arr.sort(function (a, b) { return a - b; })].  On integers the
    comparator is a total order, so the sorted array is determined by
    the multiset of its elements (see [numericSort_unique]); stdpp's
    merge sort computes it. *)

Definition numeric_before (a b : Z) : Prop := a - b <= 0.

#[global] Instance numeric_before_dec : RelDecision numeric_before.
Proof. intros a b. unfold numeric_before. apply _. Defined.

Definition _numericSort (arr : list Z) : list Z := merge_sort numeric_before arr.

(** ** [_determineCurrentBreakpoint]

    The [for] loop over the indices of [breakpoints]; [iters] counts the
    iterations that are left ([length - idx]). *)

Fixpoint determine_loop (_width : Z) (breakpoints : list Z)
    (iters : nat) (idx : Z) : jsval :=
  match iters with
  | O => JNum (-1)
  | S iters' =>
    let prevbreakpoint := arr_get breakpoints (idx - 1) in
    let breakpoint := arr_get breakpoints idx in
    let nextbreakpoint := arr_get breakpoints (idx + 1) in
    (* this is the first breakpoint and we're at it *)
    if js_not prevbreakpoint && js_le (JNum _width) breakpoint then breakpoint
    (* no next breakpoint *)
    else if js_not nextbreakpoint then breakpoint
    (* window is between two breakpoints *)
    else if js_ge (JNum _width) breakpoint && js_lt (JNum _width) nextbreakpoint
    then breakpoint
    else determine_loop _width breakpoints iters' (idx + 1)
  end.

Definition determineCurrentBreakpoint (_width : Z) (breakpoints : list Z) : jsval :=
  determine_loop _width breakpoints (length breakpoints) 0.

(** ** The closure state

    Arrays are objects: [_defaults.breakpoints] is one array object,
    private to the closure, and every [settings.breakpoints] a caller
    passes in is an array object the caller keeps a reference to.  An
    array reference is therefore either the private defaults array or a
    location of the callers' store. *)

Definition loc : Type := positive.

Inductive aref : Type :=
| DefaultsArr
| CallerArr (l : loc).

#[global] Instance aref_eq_dec : EqDecision aref.
Proof. solve_decision. Defined.

(** The two recognised keys of [_options]; [None] is a key that is not
    set ([_options] starts as [{}]). *)
Record Options : Type := mkOptions {
  classBody : option bool;
  breakpoints : option aref
}.

(** A plain object on the caller's side: the [settings] argument of
    [configure], and the object [getConfig] hands back.  [None] is an
    absent key; a present [classBody] key holds a boolean, a present
    [breakpoints] key an array of integers.  The object itself is a
    value of the caller: the closure copies its entries and keeps no
    reference to it, only to its array. *)
Record Settings : Type := mkSettings {
  s_classBody : option bool;
  s_breakpoints : option loc
}.

Record State : Type := mkState {
  _width : Z;
  _currentBreakpoint : jsval;
  _options : Options;
  (** contents of the array object [_defaults.breakpoints] *)
  defaults_breakpoints : list Z;
  (** contents of the array objects reachable by callers *)
  arrays : gmap loc (list Z);
  (** [document.body.classList] *)
  body_classList : list string;
  (** calls of [_observable.trigger], oldest first *)
  triggered : list (string * jsval);
  (** handlers registered on [signalWindow] for ['resize.breakpoint'] *)
  resize_handlers : nat;
  (** is [_resize] registered as a ['focus'] listener of [window]? *)
  focus_listener : bool
}.

Definition set_width (w : Z) (s : State) : State :=
  mkState w (_currentBreakpoint s) (_options s) (defaults_breakpoints s)
          (arrays s) (body_classList s) (triggered s) (resize_handlers s)
          (focus_listener s).

Definition set_currentBreakpoint (v : jsval) (s : State) : State :=
  mkState (_width s) v (_options s) (defaults_breakpoints s)
          (arrays s) (body_classList s) (triggered s) (resize_handlers s)
          (focus_listener s).

Definition set_options (o : Options) (s : State) : State :=
  mkState (_width s) (_currentBreakpoint s) o (defaults_breakpoints s)
          (arrays s) (body_classList s) (triggered s) (resize_handlers s)
          (focus_listener s).

Definition set_defaults_breakpoints (a : list Z) (s : State) : State :=
  mkState (_width s) (_currentBreakpoint s) (_options s) a
          (arrays s) (body_classList s) (triggered s) (resize_handlers s)
          (focus_listener s).

Definition set_arrays (h : gmap loc (list Z)) (s : State) : State :=
  mkState (_width s) (_currentBreakpoint s) (_options s) (defaults_breakpoints s)
          h (body_classList s) (triggered s) (resize_handlers s)
          (focus_listener s).

Definition set_body_classList (c : list string) (s : State) : State :=
  mkState (_width s) (_currentBreakpoint s) (_options s) (defaults_breakpoints s)
          (arrays s) c (triggered s) (resize_handlers s) (focus_listener s).

Definition set_triggered (t : list (string * jsval)) (s : State) : State :=
  mkState (_width s) (_currentBreakpoint s) (_options s) (defaults_breakpoints s)
          (arrays s) (body_classList s) t (resize_handlers s) (focus_listener s).

Definition set_resize_handlers (n : nat) (s : State) : State :=
  mkState (_width s) (_currentBreakpoint s) (_options s) (defaults_breakpoints s)
          (arrays s) (body_classList s) (triggered s) n (focus_listener s).

Definition set_focus_listener (b : bool) (s : State) : State :=
  mkState (_width s) (_currentBreakpoint s) (_options s) (defaults_breakpoints s)
          (arrays s) (body_classList s) (triggered s) (resize_handlers s) b.

(** [_defaults]: the object itself is never assigned to; the contents
    of its array are part of the state. *)
Definition _defaults : Options :=
  {| classBody := Some true; breakpoints := Some DefaultsArr |}.

Definition default_breakpoints : list Z := [320; 480; 768; 992; 1200].

(** The state when the module has been loaded: [_options = {}],
    [_currentBreakpoint] unassigned, nothing bound. *)
Definition loaded (width : Z) (heap : gmap loc (list Z)) : State :=
  {| _width := width;
     _currentBreakpoint := JUndefined;
     _options := {| classBody := None; breakpoints := None |};
     defaults_breakpoints := default_breakpoints;
     arrays := heap;
     body_classList := [];
     triggered := [];
     resize_handlers := 0;
     focus_listener := false |}.

Definition read_array (s : State) (r : aref) : option (list Z) :=
  match r with
  | DefaultsArr => Some (defaults_breakpoints s)
  | CallerArr l => arrays s !! l
  end.

Definition write_array (r : aref) (a : list Z) (s : State) : State :=
  match r with
  | DefaultsArr => set_defaults_breakpoints a s
  | CallerArr l => set_arrays (<[l := a]> (arrays s)) s
  end.

(** A caller overwrites the contents of an array it holds. *)
Definition caller_write (l : loc) (a : list Z) (s : State) : State :=
  set_arrays (<[l := a]> (arrays s)) s.

(** [_options.breakpoints] as the code reads it; [None] is the
    TypeError of reading [.length] (or calling [.sort]) on [undefined]. *)
Definition read_breakpoints (s : State) : option (list Z) :=
  r ← breakpoints (_options s); read_array s r.

(** ** The mini jQuery and the two notification sources *)

(** [elem.classList.add] and [elem.classList.remove]: the class list
    is a list without repetition.  (The [className] string fallback for
    elements without [classList] is not modelled.) *)
Definition addClass (className : string) (s : State) : State :=
  if bool_decide (className ∈ body_classList s) then s
  else set_body_classList (body_classList s ++ [className]) s.

Definition removeClass (className : string) (s : State) : State :=
  set_body_classList (filter (λ c, c ≠ className) (body_classList s)) s.

(** [window.addEventListener('focus', _resize)]: registering the same
    function twice leaves one listener. *)
Definition addEventListener_focus (s : State) : State :=
  set_focus_listener true s.

(** [Dom.prototype.on] and [Dom.prototype.off], both as written: each
    calls [addEventListener]. *)
Definition Dom_on (s : State) : State := addEventListener_focus s.
Definition Dom_off (s : State) : State := addEventListener_focus s.

(** [signalWindow.on('resize.breakpoint', fn)] adds a handler,
    [signalWindow.off('resize.breakpoint')] drops the handlers of that
    name. *)
Definition signalWindow_on (s : State) : State :=
  set_resize_handlers (S (resize_handlers s)) s.

Definition signalWindow_off (s : State) : State :=
  set_resize_handlers 0%nat s.

(** [_observable.trigger(name, payload)], recorded in the order of the
    calls. *)
Definition trigger (name : string) (payload : jsval) (s : State) : State :=
  set_triggered (triggered s ++ [(name, payload)]) s.

Definition truthy_flag (b : option bool) : bool := default false b.

(** ** Enter | Exit *)

Definition _enterBreakpoint (breakpoint : jsval) (s : State) : State :=
  if js_not breakpoint || js_le breakpoint (JNum 0) then s
  else
    let s := if truthy_flag (classBody (_options s))
             then addClass ("breakpoint-" +:+ js_to_string breakpoint) s
             else s in
    let s := trigger ("enter" +:+ js_to_string breakpoint) breakpoint s in
    trigger "enter" breakpoint s.

Definition _exitBreakpoint (breakpoint : jsval) (s : State) : State :=
  if js_not breakpoint || js_le breakpoint (JNum 0) then s
  else
    let s := if truthy_flag (classBody (_options s))
             then removeClass ("breakpoint-" +:+ js_to_string breakpoint) s
             else s in
    let s := trigger ("exit" +:+ js_to_string breakpoint) breakpoint s in
    trigger "exit" breakpoint s.

(** ** Determine | Resize *)

Definition _determineCurrentBreakpoint (s : State) : option jsval :=
  breakpoints ← read_breakpoints s;
  Some (determineCurrentBreakpoint (_width s) breakpoints).

Definition _resize (s : State) : option State :=
  resizeBreakpoint ← _determineCurrentBreakpoint s;
  (* No change in breakpoint, stop *)
  if js_strict_eq resizeBreakpoint (_currentBreakpoint s) then Some s
  else
    (* Breakpoint has changed *)
    let s := _exitBreakpoint (_currentBreakpoint s) s in
    let s := _enterBreakpoint resizeBreakpoint s in
    Some (set_currentBreakpoint resizeBreakpoint s).

(** The handler [_bind] registers for ['resize.breakpoint']:
    [function (e) { _width = e.width; _resize(); }]. *)
Definition onResize (e_width : Z) (s : State) : option State :=
  _resize (set_width e_width s).

(** ** Bind | Unbind *)

Definition _bind (s : State) : State := Dom_on (signalWindow_on s).

Definition _unbind (s : State) : State := Dom_off (signalWindow_off s).

(** ** Configure | Get | Reset *)

Definition assign_settings (settings : Settings) (o : Options) : Options :=
  {| classBody := match s_classBody settings with
                  | Some b => Some b
                  | None => classBody o
                  end;
     breakpoints := match s_breakpoints settings with
                    | Some l => Some (CallerArr l)
                    | None => breakpoints o
                    end |}.

Definition assign_defaults (o : Options) : Options :=
  {| classBody := classBody _defaults; breakpoints := breakpoints _defaults |}.

Definition _configure (settings : Settings) (s : State) : option State :=
  (* for (key in _defaults) { _options[key] = _defaults[key]; } *)
  let s := set_options (assign_defaults (_options s)) s in
  (* for (key in settings) { _options[key] = settings[key]; } *)
  let s := set_options (assign_settings settings (_options s)) s in
  (* _options.breakpoints = _numericSort(_options.breakpoints):
     the array is sorted in place and the same object is stored back *)
  r ← breakpoints (_options s);
  arr ← read_array s r;
  let s := write_array r (_numericSort arr) s in
  let s := _bind s in
  cur ← _determineCurrentBreakpoint s;
  let s := set_currentBreakpoint cur s in
  Some (_enterBreakpoint cur s).

(** [JSON.parse(JSON.stringify(_options))]: a new object with a new
    array; booleans and integers survive the round trip unchanged. *)
Definition _getConfig (s : State) : option (Settings * State) :=
  match breakpoints (_options s) with
  | None => Some ({| s_classBody := classBody (_options s);
                     s_breakpoints := None |}, s)
  | Some r =>
    arr ← read_array s r;
    let l := fresh (dom (arrays s)) in
    Some ({| s_classBody := classBody (_options s); s_breakpoints := Some l |},
          set_arrays (<[l := arr]> (arrays s)) s)
  end.

Definition _getCurrent (s : State) : option (jsval * State) :=
  cur ← _determineCurrentBreakpoint s;
  Some (cur, set_currentBreakpoint cur s).

Definition _reset (s : State) : State :=
  let s := _unbind s in
  let s := _exitBreakpoint (_currentBreakpoint s) s in
  set_currentBreakpoint JNull s.

(** ** The environment: event delivery and call sequences *)

(** A resize notification runs every registered handler in turn. *)
Fixpoint call_resize_handlers (n : nat) (e_width : Z) (s : State) : option State :=
  match n with
  | O => Some s
  | S n' => s' ← onResize e_width s; call_resize_handlers n' e_width s'
  end.

Definition deliver_resize (e_width : Z) (s : State) : option State :=
  call_resize_handlers (resize_handlers s) e_width s.

(** A focus event runs [_resize] if it is a listener. *)
Definition deliver_focus (s : State) : option State :=
  if focus_listener s then _resize s else Some s.

(** What can happen to a configured tracker. *)
Inductive event : Type :=
| OnResize (e_width : Z)
| OnFocus
| CallGetCurrent
| CallGetConfig
| CallReset.

Definition step (e : event) (s : State) : option State :=
  match e with
  | OnResize w => deliver_resize w s
  | OnFocus => deliver_focus s
  | CallGetCurrent => snd <$> _getCurrent s
  | CallGetConfig => snd <$> _getConfig s
  | CallReset => Some (_reset s)
  end.

Fixpoint run (es : list event) (s : State) : option State :=
  match es with
  | [] => Some s
  | e :: es' => s' ← step e s; run es' s'
  end.

Fixpoint configure_all (history : list Settings) (s : State) : option State :=
  match history with
  | [] => Some s
  | settings :: rest => s' ← _configure settings s; configure_all rest s'
  end.

(** ** Vocabulary of the statements *)

(** The loop of [determine_loop], read off the list instead of the
    indices: [prev] is the element before the head.  Used to reason by
    induction on the array ([determine_loop_scan]). *)
Fixpoint scan (w : Z) (prev : jsval) (l : list Z) : jsval :=
  match l with
  | [] => JNum (-1)
  | b :: rest =>
    let next := match rest with [] => JUndefined | n :: _ => JNum n end in
    if js_not prev && js_le (JNum w) (JNum b) then JNum b
    else if js_not next then JNum b
    else if js_ge (JNum w) (JNum b) && js_lt (JNum w) next then JNum b
    else scan w (JNum b) rest
  end.

Definition last_js (l : list Z) : jsval :=
  match last l with
  | Some x => JNum x
  | None => JUndefined
  end.

(** A breakpoints array as the data model has it. *)
Definition strictly_ascending (B : list Z) : Prop := StronglySorted Z.lt B.
Definition all_positive (B : list Z) : Prop := Forall (λ b, 0 < b) B.
Definition ascending (B : list Z) : Prop := Sorted Z.le B.

(** [v] is the bucket of [w]: the largest breakpoint not above [w], or
    the smallest breakpoint when [w] is below all of them. *)
Definition bucket_of (B : list Z) (w v : Z) : Prop :=
  (v <= w ∧ ∀ x, x ∈ B → x <= w → x <= v) ∨
  ((∀ x, x ∈ B → w < x) ∧ ∀ x, x ∈ B → v <= x).

(** Every array a [settings] object refers to exists. *)
Definition allocated (s : State) (settings : Settings) : Prop :=
  match s_breakpoints settings with
  | Some l => is_Some (arrays s !! l)
  | None => True
  end.

(** The array [configure(settings)] works on: the caller's, if
    [settings] brings one, else the defaults array. *)
Definition configured_array (settings : Settings) : aref :=
  match s_breakpoints settings with
  | Some l => CallerArr l
  | None => DefaultsArr
  end.

(** The options [configure(settings)] is to leave in [_options]. *)
Definition merged_over_defaults (settings : Settings) : Options :=
  {| classBody := Some (default true (s_classBody settings));
     breakpoints := Some (configured_array settings) |}.

(** The state [configure(settings)] ends in, when [arr] is what the
    configured array held before the call ([configure_returns]). *)
Definition configured (settings : Settings) (arr : list Z) (s : State) : State :=
  let cur := determineCurrentBreakpoint (_width s) (_numericSort arr) in
  _enterBreakpoint cur
    (set_currentBreakpoint cur
       (_bind (write_array (configured_array settings) (_numericSort arr)
                 (set_options (merged_over_defaults settings) s)))).

(** The value of an options object, arrays read through the store:
    what structural equality compares. *)
Definition value_of_options (s : State) : option (option bool * option (list Z)) :=
  match breakpoints (_options s) with
  | None => Some (classBody (_options s), None)
  | Some r => arr ← read_array s r; Some (classBody (_options s), Some arr)
  end.

Definition value_of_object (s : State) (o : Settings) : option (option bool * option (list Z)) :=
  match s_breakpoints o with
  | None => Some (s_classBody o, None)
  | Some l => arr ← arrays s !! l; Some (s_classBody o, Some arr)
  end.

(** The notifications of an exit and of an enter that pass the guard. *)
Definition exit_signals (v : jsval) : list (string * jsval) :=
  [("exit" +:+ js_to_string v, v); ("exit", v)].

Definition enter_signals (v : jsval) : list (string * jsval) :=
  [("enter" +:+ js_to_string v, v); ("enter", v)].

(** The guard of [_enterBreakpoint] and [_exitBreakpoint]. *)
Definition guarded (v : jsval) : bool := js_not v || js_le v (JNum 0).

(** The invariant of section 3 of the specification, with -1 as the
    sentinel, and the one the code keeps, where [_reset] leaves [null]. *)
Definition active_is_member_or_sentinel (s : State) : Prop :=
  ∃ B v, read_breakpoints s = Some B ∧ _currentBreakpoint s = JNum v ∧
         (v ∈ B ∨ v = -1).

Definition active_is_member_sentinel_or_null (s : State) : Prop :=
  ∃ B, read_breakpoints s = Some B ∧
       (_currentBreakpoint s = JNull ∨
        ∃ v, _currentBreakpoint s = JNum v ∧ (v ∈ B ∨ v = -1)).

(** The tracker as [configure()] with no settings leaves it at width
    800, and after a [reset()]. *)
Definition at_768 : State :=
  configured (mkSettings None None) default_breakpoints (loaded 800 ∅).

Definition at_768_reset : State := _reset at_768.

(** A caller's array [500, 0, 100] at location 1, and the tracker
    configured with it at width 50: the active breakpoint is 0. *)
Definition callers_heap : gmap loc (list Z) := {[1%positive := [500; 0; 100]]}.

Definition with_callers_array : Settings := mkSettings (Some false) (Some 1%positive).

Definition at_zero : State :=
  configured with_callers_array [500; 0; 100] (loaded 50 callers_heap).

(** An active value the code can hold over the breakpoints [B]. *)
Definition active_over (B : list Z) (cur : jsval) : Prop :=
  cur = JNull ∨ ∃ v, cur = JNum v ∧ (v ∈ B ∨ v = -1).

(** The breakpoints are [B] and the active value is one over [B]: what
    every operation of a configured tracker keeps. *)
Definition holds_over (B : list Z) (s : State) : Prop :=
  read_breakpoints s = Some B ∧ active_over B (_currentBreakpoint s).

Definition breakpoints_ascending (s : State) : Prop :=
  ∃ B, read_breakpoints s = Some B ∧ ascending B.

(** ** Vocabulary of the further properties *)

(** No breakpoint after the first one is 0. *)
Definition zero_free_tail (B : list Z) : Prop := Forall (λ b, b ≠ 0) (tail B).

(** The class [_enterBreakpoint] adds and [_exitBreakpoint] removes for
    the breakpoint [v]. *)
Definition class_of (v : jsval) : string := "breakpoint-" +:+ js_to_string v.

(** The body carries no breakpoint class, or exactly the class of the
    active breakpoint. *)
Definition at_most_the_active_class (s : State) : Prop :=
  body_classList s = [] ∨
  ∃ v, 0 < v ∧ _currentBreakpoint s = JNum v ∧
       body_classList s = [class_of (JNum v)].

(** The same over the breakpoints [B], with what keeps it true across
    the operations: while the class is there, the active breakpoint is
    the bucket of the stored width. *)
Definition class_follows_active (B : list Z) (s : State) : Prop :=
  read_breakpoints s = Some B ∧
  (body_classList s = [] ∨
   ∃ v, 0 < v ∧ _currentBreakpoint s = JNum v ∧
        truthy_flag (classBody (_options s)) = true ∧
        determineCurrentBreakpoint (_width s) B = JNum v ∧
        body_classList s = [class_of (JNum v)]).

(** The class list is [c] and [classBody] is switched off. *)
Definition classes_untouched (B : list Z) (c : list string) (s : State) : Prop :=
  read_breakpoints s = Some B ∧
  truthy_flag (classBody (_options s)) = false ∧ body_classList s = c.

(** A notification as the code means to emit it: the payload is a
    positive breakpoint [n] and the name is one of the four signals of
    [n], the number spelled as ['enter' + n] spells it. *)
Definition well_formed_signal (x : string * jsval) : Prop :=
  ∃ n, 0 < n ∧ x.2 = JNum n ∧
       x.1 ∈ ["enter" +:+ js_to_string (JNum n); "enter";
              "exit" +:+ js_to_string (JNum n); "exit"].


(** The options are [o] over the breakpoints [B]. *)
Definition options_are (o : Options) (B : list Z) (s : State) : Prop :=
  read_breakpoints s = Some B ∧ _options s = o.

Definition signals_well_formed (s : State) : Prop :=
  Forall well_formed_signal (triggered s).

(** A tracker over an empty breakpoints array that has emitted [t] and
    whose body classes are [c]. *)
Definition quiet_over_empty (t : list (string * jsval)) (c : list string)
    (s : State) : Prop :=
  read_breakpoints s = Some [] ∧
  (_currentBreakpoint s = JNull ∨ _currentBreakpoint s = JNum (-1)) ∧
  triggered s = t ∧ body_classList s = c.

(** ** Sorting *)

#[global] Instance numeric_before_total : Total numeric_before.
Proof. intros a b. unfold numeric_before. lia. Qed.

#[global] Instance numeric_before_trans : Transitive numeric_before.
Proof. intros a b c. unfold numeric_before. lia. Qed.

Lemma numericSort_perm (arr : list Z) : _numericSort arr ≡ₚ arr.
Proof. apply merge_sort_Permutation. Qed.

Lemma numericSort_strongly_sorted (arr : list Z) :
  StronglySorted Z.le (_numericSort arr).
Proof.
  pose proof (StronglySorted_merge_sort numeric_before arr) as H.
  unfold _numericSort. induction H as [|x l Hl IH Hx]; constructor; auto.
  eapply Forall_impl; [exact Hx|]. unfold numeric_before. intros; lia.
Qed.

Lemma numericSort_ascending (arr : list Z) : ascending (_numericSort arr).
Proof. apply StronglySorted_Sorted, numericSort_strongly_sorted. Qed.

(** Two ascending arrays with the same elements are the same array, so
    the result of the sort does not depend on the algorithm. *)
Lemma ascending_perm_unique (l1 l2 : list Z) :
  StronglySorted Z.le l1 → StronglySorted Z.le l2 → l1 ≡ₚ l2 → l1 = l2.
Proof.
  intros H1. revert l2. induction H1 as [|x l1 Hs1 IH Hx]; intros l2 H2 Hp.
  - symmetry. by apply Permutation_nil.
  - destruct H2 as [|y l2 Hs2 Hy].
    + symmetry in Hp. by apply Permutation_nil in Hp.
    + assert (x = y) as ->.
      { assert (x ∈ y :: l2) as Hxin by (rewrite <- Hp; left).
        assert (y ∈ x :: l1) as Hyin by (rewrite Hp; left).
        rewrite Forall_forall in Hx, Hy.
        apply elem_of_cons in Hxin as [?|Hxin]; [done|].
        apply elem_of_cons in Hyin as [?|Hyin]; [done|].
        specialize (Hx _ Hyin). specialize (Hy _ Hxin). lia. }
      f_equal. apply IH; [done|]. by apply Permutation_cons_inv in Hp.
Qed.

Lemma numericSort_unique (arr sorted : list Z) :
  StronglySorted Z.le sorted → sorted ≡ₚ arr → _numericSort arr = sorted.
Proof.
  intros Hs Hp. apply ascending_perm_unique; [apply numericSort_strongly_sorted|done|].
  by rewrite numericSort_perm.
Qed.

Lemma numericSort_sorted_id (arr : list Z) :
  StronglySorted Z.le arr → _numericSort arr = arr.
Proof. intros H. by apply numericSort_unique. Qed.

(** ** The bucket search *)

Section Determine.
Variable w : Z.

Lemma arr_get_middle (pre rest : list Z) (b : Z) :
  arr_get (pre ++ b :: rest) (Z.of_nat (length pre)) = JNum b.
Proof.
  unfold arr_get. destruct (Z.ltb_spec (Z.of_nat (length pre)) 0); [lia|].
  rewrite Nat2Z.id, lookup_app_r by lia.
  by rewrite Nat.sub_diag.
Qed.

Lemma arr_get_next (pre rest : list Z) (b : Z) :
  arr_get (pre ++ b :: rest) (Z.of_nat (length pre) + 1)
  = match rest with [] => JUndefined | n :: _ => JNum n end.
Proof.
  unfold arr_get. destruct (Z.ltb_spec (Z.of_nat (length pre) + 1) 0); [lia|].
  replace (Z.to_nat (Z.of_nat (length pre) + 1)) with (S (length pre)) by lia.
  rewrite lookup_app_r by lia.
  replace (S (length pre) - length pre)%nat with 1%nat by lia.
  by destruct rest.
Qed.

Lemma arr_get_prev (pre rest : list Z) :
  arr_get (pre ++ rest) (Z.of_nat (length pre) - 1) = last_js pre.
Proof.
  unfold arr_get, last_js.
  destruct pre as [|p pre] using rev_ind; [done|].
  rewrite length_app, last_snoc. simpl.
  destruct (Z.ltb_spec (Z.of_nat (length pre + 1) - 1) 0); [lia|].
  replace (Z.to_nat (Z.of_nat (length pre + 1) - 1)) with (length pre) by lia.
  rewrite <- app_assoc. rewrite lookup_app_r by lia.
  by rewrite Nat.sub_diag.
Qed.

(** The indexed loop and the list recursion agree. *)
Lemma determine_loop_scan (rest pre : list Z) :
  determine_loop w (pre ++ rest) (length rest) (Z.of_nat (length pre))
  = scan w (last_js pre) rest.
Proof.
  revert pre. induction rest as [|b rest IH]; intros pre; [done|].
  cbn [length determine_loop scan].
  rewrite arr_get_prev, arr_get_middle, arr_get_next.
  specialize (IH (pre ++ [b])).
  rewrite <- app_assoc in IH. cbn [app] in IH.
  rewrite length_app in IH. cbn [length] in IH.
  replace (Z.of_nat (length pre + 1)) with (Z.of_nat (length pre) + 1) in IH by lia.
  rewrite IH. unfold last_js. by rewrite last_snoc.
Qed.

Lemma determine_scan (B : list Z) :
  determineCurrentBreakpoint w B = scan w JUndefined B.
Proof. apply (determine_loop_scan B []). Qed.

(** The loop returns at the last index at the latest: a non-empty
    array always yields one of its elements. *)
Lemma scan_member (l : list Z) (prev : jsval) :
  l ≠ [] → ∃ v, scan w prev l = JNum v ∧ v ∈ l.
Proof.
  revert prev. induction l as [|b l IH]; intros prev Hne; [done|].
  cbn [scan].
  destruct (js_not prev && js_le (JNum w) (JNum b)).
  { exists b. split; [done|left]. }
  destruct l as [|n l].
  { exists b. split; [done|left]. }
  destruct (js_not (JNum n)).
  { exists b. split; [done|left]. }
  destruct (js_ge (JNum w) (JNum b) && js_lt (JNum w) (JNum n)).
  { exists b. split; [done|left]. }
  destruct (IH (JNum b)) as (v & Hv & Hin); [done|].
  exists v. split; [done|by right].
Qed.

(** Once the width has reached the head, the search returns the last
    breakpoint that is not above the width. *)
Lemma scan_reached (l : list Z) (prev : jsval) (b : Z) :
  b <= w → strictly_ascending (b :: l) → all_positive (b :: l) →
  ∃ v, scan w prev (b :: l) = JNum v ∧ v ∈ b :: l ∧ v <= w ∧
       ∀ x, x ∈ b :: l → x <= w → x <= v.
Proof.
  revert prev b. induction l as [|n l IH]; intros prev b Hb Hs Hp.
  - exists b. cbn [scan].
    split; [by destruct (js_not prev && js_le (JNum w) (JNum b))|].
    split; [left|]. split; [done|].
    intros x Hx _. apply list_elem_of_singleton in Hx. lia.
  - apply StronglySorted_inv in Hs as [Hs Hlt].
    apply Forall_cons in Hp as [Hb0 Hp].
    pose proof Hlt as Hlt'. apply Forall_cons in Hlt' as [Hbn Hbl].
    pose proof Hp as Hp'. apply Forall_cons in Hp' as [Hn0 _].
    assert (∀ x, x ∈ b :: n :: l → x = b ∨ n <= x) as Hcases.
    { intros x Hx. apply elem_of_cons in Hx as [->|Hx]; [by left|right].
      apply elem_of_cons in Hx as [->|Hx]; [lia|].
      apply StronglySorted_inv in Hs as [_ Hnl].
      rewrite Forall_forall in Hnl. specialize (Hnl _ Hx). lia. }
    destruct (Z.lt_ge_cases w n) as [Hwn|Hwn].
    + exists b. split.
      * cbn [scan].
        destruct (js_not prev && js_le (JNum w) (JNum b)); [done|].
        assert (js_not (JNum n) = false) as -> by (cbn; lia).
        assert (js_ge (JNum w) (JNum b) && js_lt (JNum w) (JNum n) = true) as ->; [|done].
        unfold js_ge, js_le, js_lt; cbn. apply andb_true_iff. split; lia.
      * split; [left|]. split; [done|].
        intros x Hx Hxw. destruct (Hcases x Hx); lia.
    + destruct (IH (JNum b) n Hwn Hs Hp) as (v & Hv & Hin & Hvw & Hmax).
      destruct (decide (w = b)) as [->|Hne]; [lia|].
      exists v. split.
      * cbn [scan] in Hv |- *.
        assert (js_not prev && js_le (JNum w) (JNum b) = false) as ->.
        { apply andb_false_iff. right. unfold js_le; cbn. lia. }
        assert (js_not (JNum n) = false) as -> by (cbn; lia).
        assert (js_ge (JNum w) (JNum b) && js_lt (JNum w) (JNum n) = false) as ->; [|done].
        apply andb_false_iff. right. unfold js_lt; cbn. lia.
      * split; [by right|]. split; [done|].
        intros x Hx Hxw. apply elem_of_cons in Hx as [->|Hx]; [|by apply Hmax].
        assert (n <= v) by (apply Hmax; [left|done]). lia.
Qed.
End Determine.

(** C1.  For an ascending array [B] of distinct positive integers and
    any width [w], [determineCurrentBreakpoint] returns the sentinel -1
    when [B] is empty and otherwise an element [v] of [B] that is the
    largest element not above [w], or the smallest element of [B] when
    [w] is below every element. *)
Theorem determine_returns_bucket (B : list Z) (w : Z) :
  strictly_ascending B → all_positive B →
  (B = [] → determineCurrentBreakpoint w B = JNum (-1)) ∧
  (B ≠ [] → ∃ v, determineCurrentBreakpoint w B = JNum v ∧ v ∈ B ∧ bucket_of B w v).
Proof.
  intros Hs Hp. split; [by intros ->|]. intros Hne.
  rewrite determine_scan. destruct B as [|b l]; [done|].
  destruct (Z.le_gt_cases b w) as [Hbw|Hbw].
  - destruct (scan_reached w l JUndefined b Hbw Hs Hp) as (v & Hv & Hin & Hvw & Hmax).
    exists v. split; [done|]. split; [done|]. by left.
  - exists b. split.
    + cbn [scan]. assert (js_not JUndefined && js_le (JNum w) (JNum b) = true) as ->; [|done].
      unfold js_le; cbn. lia.
    + split; [left|]. right.
      apply StronglySorted_inv in Hs as [_ Hlt]. rewrite Forall_forall in Hlt.
      split; intros x Hx; apply elem_of_cons in Hx as [->|Hx];
        try lia; specialize (Hlt _ Hx); lia.
Qed.

Lemma determine_returns_bucket_witness :
  strictly_ascending default_breakpoints ∧ all_positive default_breakpoints ∧
  determineCurrentBreakpoint 600 default_breakpoints = JNum 480 ∧
  bucket_of default_breakpoints 600 480.
Proof.
  assert (strictly_ascending default_breakpoints) as Hs.
  { unfold strictly_ascending, default_breakpoints.
    repeat (constructor; [|repeat constructor; lia]). constructor. }
  assert (all_positive default_breakpoints) as Hp.
  { unfold all_positive, default_breakpoints. repeat constructor; lia. }
  split; [exact Hs|]. split; [exact Hp|].
  destruct (determine_returns_bucket default_breakpoints 600 Hs Hp) as [_ H].
  destruct H as (v & Hv & _ & Hb); [done|].
  assert (v = 480) as -> by (vm_compute in Hv; congruence).
  split; [reflexivity | exact Hb].
Defined.

(** ** Enter, exit and resize *)

Lemma guarded_positive (n : Z) : 0 < n → guarded (JNum n) = false.
Proof. intros H. unfold guarded, js_le; cbn. apply orb_false_iff. split; lia. Qed.

Lemma guarded_nonpositive (n : Z) : n <= 0 → guarded (JNum n) = true.
Proof. intros H. unfold guarded, js_le; cbn. apply orb_true_iff. right. lia. Qed.

Lemma enter_guarded (v : jsval) (s : State) :
  guarded v = true → _enterBreakpoint v s = s.
Proof. unfold guarded, _enterBreakpoint. by intros ->. Qed.

Lemma exit_guarded (v : jsval) (s : State) :
  guarded v = true → _exitBreakpoint v s = s.
Proof. unfold guarded, _exitBreakpoint. by intros ->. Qed.

Lemma enter_triggered (v : jsval) (s : State) :
  triggered (_enterBreakpoint v s)
  = triggered s ++ (if guarded v then [] else enter_signals v).
Proof.
  unfold _enterBreakpoint, guarded.
  destruct (js_not v || js_le v (JNum 0)); [by rewrite app_nil_r|].
  unfold trigger, addClass, enter_signals. cbn.
  destruct (truthy_flag _); [destruct (bool_decide _)|]; cbn;
    by rewrite <- app_assoc.
Qed.

Lemma exit_triggered (v : jsval) (s : State) :
  triggered (_exitBreakpoint v s)
  = triggered s ++ (if guarded v then [] else exit_signals v).
Proof.
  unfold _exitBreakpoint, guarded.
  destruct (js_not v || js_le v (JNum 0)); [by rewrite app_nil_r|].
  unfold trigger, removeClass, exit_signals. cbn.
  destruct (truthy_flag _); cbn; by rewrite <- app_assoc.
Qed.

(** Entering and leaving touch the class list and the notifications
    only. *)
Lemma enter_frame (v : jsval) (s : State) :
  let s' := _enterBreakpoint v s in
  _width s' = _width s ∧ _currentBreakpoint s' = _currentBreakpoint s ∧
  _options s' = _options s ∧ defaults_breakpoints s' = defaults_breakpoints s ∧
  arrays s' = arrays s ∧ resize_handlers s' = resize_handlers s ∧
  focus_listener s' = focus_listener s.
Proof.
  unfold _enterBreakpoint.
  destruct (js_not v || js_le v (JNum 0)); [done|].
  unfold trigger, addClass.
  destruct (truthy_flag _); [destruct (bool_decide _)|]; done.
Qed.

Lemma exit_frame (v : jsval) (s : State) :
  let s' := _exitBreakpoint v s in
  _width s' = _width s ∧ _currentBreakpoint s' = _currentBreakpoint s ∧
  _options s' = _options s ∧ defaults_breakpoints s' = defaults_breakpoints s ∧
  arrays s' = arrays s ∧ resize_handlers s' = resize_handlers s ∧
  focus_listener s' = focus_listener s.
Proof.
  unfold _exitBreakpoint.
  destruct (js_not v || js_le v (JNum 0)); [done|].
  unfold trigger, removeClass.
  destruct (truthy_flag _); done.
Qed.

Lemma resize_unchanged (s : State) (B : list Z) :
  read_breakpoints s = Some B →
  _currentBreakpoint s = determineCurrentBreakpoint (_width s) B →
  _resize s = Some s.
Proof.
  intros HB Hcur. unfold _resize, _determineCurrentBreakpoint.
  rewrite HB. cbn. rewrite <- Hcur.
  unfold js_strict_eq. by rewrite bool_decide_eq_true_2.
Qed.

Lemma resize_changed (s : State) (B : list Z) :
  read_breakpoints s = Some B →
  determineCurrentBreakpoint (_width s) B ≠ _currentBreakpoint s →
  _resize s =
  Some (set_currentBreakpoint (determineCurrentBreakpoint (_width s) B)
          (_enterBreakpoint (determineCurrentBreakpoint (_width s) B)
             (_exitBreakpoint (_currentBreakpoint s) s))).
Proof.
  intros HB Hne. unfold _resize, _determineCurrentBreakpoint.
  rewrite HB. cbn. unfold js_strict_eq. by rewrite bool_decide_eq_false_2.
Qed.

(** C2.  When the bucket recomputed for the delivered width is the
    active breakpoint, the resize handler only stores the width: no
    notification, no class change, the same active breakpoint.  A focus
    event, which re-evaluates the stored width, changes nothing at all.
    The same holds for the delivery through the registered handlers. *)
Theorem resize_same_bucket_is_silent (s : State) (B : list Z) (e_width : Z) :
  read_breakpoints s = Some B →
  (_currentBreakpoint s = determineCurrentBreakpoint e_width B →
     onResize e_width s = Some (set_width e_width s) ∧
     deliver_resize e_width s
     = Some (match resize_handlers s with O => s | S _ => set_width e_width s end)) ∧
  (_currentBreakpoint s = determineCurrentBreakpoint (_width s) B →
     _resize s = Some s ∧ deliver_focus s = Some s).
Proof.
  intros HB. split; intros Hcur.
  - assert (onResize e_width s = Some (set_width e_width s)) as Hone.
    { unfold onResize. by apply resize_unchanged with B. }
    split; [done|]. unfold deliver_resize.
    destruct (resize_handlers s) as [|n]; [done|].
    cbn [call_resize_handlers]. rewrite Hone. cbn.
    assert (onResize e_width (set_width e_width s) = Some (set_width e_width s)) as Hagain.
    { unfold onResize. by apply resize_unchanged with B. }
    induction n as [|n IH]; [done|].
    cbn [call_resize_handlers]. rewrite Hagain. exact IH.
  - assert (_resize s = Some s) as Hone by by apply resize_unchanged with B.
    split; [done|]. unfold deliver_focus. by destruct (focus_listener s).
Qed.


(** C4.  A breakpoint value that is [null], 0, negative or the sentinel
    -1 passes through [_enterBreakpoint] and [_exitBreakpoint] without
    any effect: no notification, no change of the body classes. *)
Theorem guarded_breakpoint_has_no_effect (s : State) (breakpoint : jsval) :
  breakpoint = JNull ∨ (∃ n, breakpoint = JNum n ∧ n <= 0) →
  _enterBreakpoint breakpoint s = s ∧ _exitBreakpoint breakpoint s = s.
Proof.
  intros H.
  assert (guarded breakpoint = true) as Hg.
  { destruct H as [->|(n & -> & Hn)]; [done|by apply guarded_nonpositive]. }
  split; [by apply enter_guarded|by apply exit_guarded].
Qed.

(** ** Reset *)

Lemma reset_effects (s : State) :
  let cur := _currentBreakpoint s in
  _currentBreakpoint (_reset s) = JNull ∧
  _width (_reset s) = _width s ∧
  triggered (_reset s) = triggered s ++ (if guarded cur then [] else exit_signals cur) ∧
  resize_handlers (_reset s) = 0%nat ∧
  focus_listener (_reset s) = true.
Proof.
  unfold _reset. cbn zeta.
  pose proof (exit_frame (_currentBreakpoint (_unbind s)) (_unbind s)) as Hx.
  cbn zeta in Hx. destruct Hx as (Hw & _ & _ & _ & _ & Hr & Hf).
  split; [done|]. split; [exact Hw|].
  split; [|split; [exact Hr|exact Hf]].
  change (triggered (_exitBreakpoint (_currentBreakpoint s) (_unbind s))
          = triggered (_unbind s)
            ++ (if guarded (_currentBreakpoint s) then []
                else exit_signals (_currentBreakpoint s))).
  apply exit_triggered.
Qed.

(** C8.  A second [reset()] changes nothing: the state after two calls,
    notifications included, is the state after one. *)
Theorem reset_idempotent (s : State) : _reset (_reset s) = _reset s.
Proof.
  unfold _reset. cbn zeta.
  set (r := _exitBreakpoint _ (_unbind s)).
  assert (resize_handlers r = 0%nat ∧ focus_listener r = true) as [Hr Hf].
  { subst r. pose proof (exit_frame (_currentBreakpoint (_unbind s)) (_unbind s)) as Hx.
    cbn zeta in Hx. by destruct Hx as (_ & _ & _ & _ & _ & -> & ->). }
  destruct r as [w c o d a b t n f]. cbn in Hr, Hf. subst n f. reflexivity.
Qed.

(** ** Configure *)

Lemma read_array_write_same (r : aref) (a : list Z) (s : State) :
  read_array (write_array r a s) r = Some a.
Proof. destruct r as [|l]; cbn; [done|]. apply lookup_insert_eq. Qed.

Lemma read_array_write_other (r r' : aref) (a : list Z) (s : State) :
  r ≠ r' → read_array (write_array r a s) r' = read_array s r'.
Proof.
  intros Hne. destruct r as [|l], r' as [|l']; cbn; try done.
  apply lookup_insert_ne. congruence.
Qed.

Lemma assign_merged (settings : Settings) (o : Options) :
  assign_settings settings (assign_defaults o) = merged_over_defaults settings.
Proof.
  unfold assign_settings, assign_defaults, merged_over_defaults, configured_array.
  destruct settings as [[b|] [l|]]; reflexivity.
Qed.

(** [configure] returns as soon as the array it is to sort exists, and
    its result is [configured]. *)
Lemma configure_returns (settings : Settings) (arr : list Z) (s : State) :
  read_array s (configured_array settings) = Some arr →
  _configure settings s = Some (configured settings arr s).
Proof.
  intros Harr.
  unfold _configure, configured, _determineCurrentBreakpoint, read_breakpoints.
  destruct s as [w c o d h b t n f], settings as [cb [l|]];
    cbn -[_numericSort determineCurrentBreakpoint _enterBreakpoint] in *.
  - rewrite Harr. cbn -[_numericSort determineCurrentBreakpoint _enterBreakpoint].
    rewrite lookup_insert_eq. cbn -[_numericSort determineCurrentBreakpoint _enterBreakpoint].
    destruct cb; reflexivity.
  - injection Harr as <-. destruct cb; reflexivity.
Qed.

Lemma configure_inv (settings : Settings) (s s' : State) :
  _configure settings s = Some s' →
  ∃ arr, read_array s (configured_array settings) = Some arr ∧
         s' = configured settings arr s.
Proof.
  intros H. destruct (read_array s (configured_array settings)) as [arr|] eqn:Harr.
  - exists arr. split; [done|]. rewrite (configure_returns _ arr) in H by done.
    congruence.
  - exfalso. unfold _configure in H.
    destruct s as [w c o d h b t n f], settings as [cb [l|]];
    cbn -[_numericSort determineCurrentBreakpoint _enterBreakpoint] in *.
    + rewrite Harr in H. discriminate.
    + discriminate.
Qed.

(** What [configured] leaves in each field. *)
Lemma configured_fields (settings : Settings) (arr : list Z) (s : State) :
  let s' := configured settings arr s in
  _width s' = _width s ∧
  _currentBreakpoint s' = determineCurrentBreakpoint (_width s) (_numericSort arr) ∧
  _options s' = merged_over_defaults settings ∧
  read_array s' (configured_array settings) = Some (_numericSort arr) ∧
  (∀ r, r ≠ configured_array settings → read_array s' r = read_array s r) ∧
  resize_handlers s' = S (resize_handlers s) ∧
  focus_listener s' = true.
Proof.
  unfold configured. cbn zeta.
  set (cur := determineCurrentBreakpoint _ _).
  set (written := write_array _ _ _).
  pose proof (enter_frame cur (set_currentBreakpoint cur (_bind written))) as He.
  cbn zeta in He. destruct He as (-> & -> & -> & Hd & Ha & -> & ->).
  assert (∀ r, read_array (_enterBreakpoint cur (set_currentBreakpoint cur (_bind written))) r
               = read_array written r) as Hread.
  { intros [|l]; unfold read_array; [by rewrite Hd|by rewrite Ha]. }
  assert (_width written = _width s ∧ _options written = merged_over_defaults settings
          ∧ resize_handlers written = resize_handlers s) as (Hw & Ho & Hn).
  { subst written. by destruct (configured_array settings). }
  split; [exact Hw|]. split; [reflexivity|]. split; [exact Ho|].
  split; [|split; [|split; [cbn; by rewrite Hn|reflexivity]]].
  - rewrite Hread. apply read_array_write_same.
  - intros r Hr. rewrite Hread. subst written.
    by rewrite read_array_write_other.
Qed.

Lemma configured_read_breakpoints (settings : Settings) (arr : list Z) (s : State) :
  read_breakpoints (configured settings arr s) = Some (_numericSort arr).
Proof.
  destruct (configured_fields settings arr s) as (_ & _ & Ho & Hr & _).
  unfold read_breakpoints. rewrite Ho. exact Hr.
Qed.

(** C10.  When [settings] brings a breakpoints array, [configure] sorts
    that very array object: afterwards the caller's array holds its
    elements in ascending order, and [_options.breakpoints] is a
    reference to it, so that what the caller writes to the array later
    is what the tracker reads. *)
Theorem configure_sorts_callers_array
    (settings : Settings) (l : loc) (arr : list Z) (s : State) :
  s_breakpoints settings = Some l →
  arrays s !! l = Some arr →
  ∃ s', _configure settings s = Some s' ∧
        arrays s' !! l = Some (_numericSort arr) ∧
        ascending (_numericSort arr) ∧ _numericSort arr ≡ₚ arr ∧
        breakpoints (_options s') = Some (CallerArr l) ∧
        ∀ a, read_breakpoints (caller_write l a s') = Some a.
Proof.
  intros Hl Harr.
  assert (configured_array settings = CallerArr l) as Hr
    by (unfold configured_array; by rewrite Hl).
  exists (configured settings arr s).
  split; [apply configure_returns; by rewrite Hr|].
  destruct (configured_fields settings arr s) as (_ & _ & Ho & Hread & _).
  rewrite Hr in Hread. cbn in Hread.
  split; [exact Hread|]. split; [apply numericSort_ascending|].
  split; [apply numericSort_perm|].
  assert (breakpoints (_options (configured settings arr s)) = Some (CallerArr l)) as Hb.
  { rewrite Ho. cbn. by rewrite Hr. }
  split; [exact Hb|].
  intros a. unfold read_breakpoints.
  change (_options (caller_write l a ?x)) with (_options x).
  rewrite Hb. cbn. apply lookup_insert_eq.
Qed.

Lemma allocated_read (s : State) (settings : Settings) :
  allocated s settings → is_Some (read_array s (configured_array settings)).
Proof.
  unfold allocated, configured_array.
  destruct (s_breakpoints settings); cbn; [done|by eexists].
Qed.

Lemma configured_keeps_allocated
    (settings other : Settings) (arr : list Z) (s : State) :
  allocated s other → allocated (configured settings arr s) other.
Proof.
  intros Hal. apply allocated_read in Hal. unfold allocated.
  destruct (s_breakpoints other) as [l|] eqn:Hl; [|done].
  unfold configured_array in Hal. rewrite Hl in Hal.
  destruct (configured_fields settings arr s) as (_ & _ & _ & Hsame & Hother & _).
  destruct (decide (CallerArr l = configured_array settings)) as [Heq|Hne].
  - rewrite <- Heq in Hsame. cbn in Hsame. by rewrite Hsame.
  - specialize (Hother _ Hne). cbn in Hother. by rewrite Hother.
Qed.

Lemma default_breakpoints_sorted : _numericSort default_breakpoints = default_breakpoints.
Proof. reflexivity. Qed.

Lemma configured_keeps_defaults (settings : Settings) (arr : list Z) (s : State) :
  read_array s (configured_array settings) = Some arr →
  defaults_breakpoints s = default_breakpoints →
  defaults_breakpoints (configured settings arr s) = default_breakpoints.
Proof.
  intros Harr Hd.
  destruct (configured_fields settings arr s) as (_ & _ & _ & Hsame & Hother & _).
  destruct (decide (DefaultsArr = configured_array settings)) as [Heq|Hne].
  - rewrite <- Heq in Hsame, Harr. cbn in Hsame, Harr.
    injection Hsame as ->. injection Harr as <-.
    rewrite Hd. apply default_breakpoints_sorted.
  - specialize (Hother _ Hne). cbn in Hother. injection Hother as ->. exact Hd.
Qed.

Lemma configure_all_returns (history : list Settings) (s0 : State) :
  defaults_breakpoints s0 = default_breakpoints →
  Forall (allocated s0) history →
  ∃ s, configure_all history s0 = Some s ∧
       defaults_breakpoints s = default_breakpoints ∧
       ∀ other, allocated s0 other → allocated s other.
Proof.
  revert s0. induction history as [|settings rest IH]; intros s0 Hd Hall.
  - exists s0. by cbn.
  - apply Forall_cons in Hall as [Hhere Hrest].
    destruct (allocated_read _ _ Hhere) as [arr Harr].
    destruct (IH (configured settings arr s0)) as (s & Hrun & Hds & Hal).
    + by apply configured_keeps_defaults.
    + eapply Forall_impl; [exact Hrest|]. intros other.
      apply configured_keeps_allocated.
    + exists s. cbn [configure_all]. rewrite (configure_returns _ arr) by done.
      cbn. split; [exact Hrun|]. split; [exact Hds|].
      intros other Ho. by apply Hal, configured_keeps_allocated.
Qed.

(** C6.  After any sequence of earlier [configure] calls,
    [configure(settings)] returns with [_options] equal to [settings]
    merged over the defaults ([classBody] true, [breakpoints] the
    defaults array), the configured array sorted ascending, and the
    defaults array still holding 320, 480, 768, 992, 1200. *)
Theorem configure_merges_and_keeps_defaults
    (history : list Settings) (settings : Settings) (s0 : State) :
  defaults_breakpoints s0 = default_breakpoints →
  Forall (allocated s0) (history ++ [settings]) →
  ∃ s s' arr,
    configure_all history s0 = Some s ∧
    read_array s (configured_array settings) = Some arr ∧
    _configure settings s = Some s' ∧
    _options s' = merged_over_defaults settings ∧
    (s_breakpoints settings = None → arr = default_breakpoints) ∧
    read_breakpoints s' = Some (_numericSort arr) ∧
    ascending (_numericSort arr) ∧ _numericSort arr ≡ₚ arr ∧
    _defaults = {| classBody := Some true; breakpoints := Some DefaultsArr |} ∧
    defaults_breakpoints s' = default_breakpoints.
Proof.
  intros Hd Hall. apply Forall_app in Hall as [Hhist Hlast].
  rewrite Forall_singleton in Hlast.
  destruct (configure_all_returns history s0 Hd Hhist) as (s & Hrun & Hds & Hal).
  destruct (allocated_read _ _ (Hal _ Hlast)) as [arr Harr].
  exists s, (configured settings arr s), arr.
  split; [exact Hrun|]. split; [exact Harr|].
  split; [by apply configure_returns|].
  destruct (configured_fields settings arr s) as (_ & _ & Ho & _).
  split; [exact Ho|]. split.
  { intros Hnone. unfold configured_array in Harr. rewrite Hnone in Harr.
    cbn in Harr. congruence. }
  split; [apply configured_read_breakpoints|].
  split; [apply numericSort_ascending|]. split; [apply numericSort_perm|].
  split; [reflexivity|]. by apply configured_keeps_defaults.
Qed.

(** ** getConfig *)

Lemma getConfig_returns (s : State) (r : aref) (B : list Z) :
  breakpoints (_options s) = Some r →
  read_array s r = Some B →
  let l := fresh (dom (arrays s)) in
  _getConfig s
  = Some ({| s_classBody := classBody (_options s); s_breakpoints := Some l |},
          set_arrays (<[l := B]> (arrays s)) s) ∧
  arrays s !! l = None.
Proof.
  intros Hr HB l. split.
  - unfold _getConfig. rewrite Hr, HB. reflexivity.
  - apply not_elem_of_dom. apply is_fresh.
Qed.

Lemma value_of_options_read (s : State) (r : aref) (B : list Z) :
  breakpoints (_options s) = Some r →
  read_array s r = Some B →
  value_of_options s = Some (classBody (_options s), Some B).
Proof. intros Hr HB. unfold value_of_options. by rewrite Hr, HB. Qed.

(** Writing to an array that did not exist in [s] does not change what
    the arrays of [s] hold. *)
Lemma read_array_fresh (s : State) (h : gmap loc (list Z)) (l : loc) (r : aref) (B : list Z) :
  arrays s !! l = None →
  (∀ l', l' ≠ l → h !! l' = arrays s !! l') →
  read_array s r = Some B →
  read_array (set_arrays h s) r = Some B.
Proof.
  intros Hfresh Hh HB. destruct r as [|l0]; cbn in *; [done|].
  rewrite Hh; [done|]. intros ->. congruence.
Qed.

(** ** The invariant of a configured tracker *)

Lemma determine_member_or_sentinel (w : Z) (B : list Z) :
  ∃ v, determineCurrentBreakpoint w B = JNum v ∧ (v ∈ B ∨ v = -1).
Proof.
  rewrite determine_scan. destruct B as [|b l].
  - exists (-1). by split; [|right].
  - destruct (scan_member w (b :: l) JUndefined) as (v & Hv & Hin); [done|].
    exists v. by split; [|left].
Qed.

Lemma determine_active_over (w : Z) (B : list Z) :
  active_over B (determineCurrentBreakpoint w B).
Proof. right. apply determine_member_or_sentinel. Qed.

Lemma read_breakpoints_ext (s s' : State) :
  _options s' = _options s → defaults_breakpoints s' = defaults_breakpoints s →
  arrays s' = arrays s → read_breakpoints s' = read_breakpoints s.
Proof.
  intros Ho Hd Ha. unfold read_breakpoints. rewrite Ho.
  destruct (breakpoints (_options s)) as [[|l]|]; cbn; by rewrite ?Hd, ?Ha.
Qed.

Lemma enter_read_breakpoints (v : jsval) (s : State) :
  read_breakpoints (_enterBreakpoint v s) = read_breakpoints s.
Proof.
  pose proof (enter_frame v s) as H. cbn zeta in H.
  destruct H as (_ & _ & Ho & Hd & Ha & _). by apply read_breakpoints_ext.
Qed.

Lemma exit_read_breakpoints (v : jsval) (s : State) :
  read_breakpoints (_exitBreakpoint v s) = read_breakpoints s.
Proof.
  pose proof (exit_frame v s) as H. cbn zeta in H.
  destruct H as (_ & _ & Ho & Hd & Ha & _). by apply read_breakpoints_ext.
Qed.

Section Invariant.
Variable B : list Z.

Lemma resize_keeps (s : State) :
  holds_over B s → ∃ s', _resize s = Some s' ∧ holds_over B s'.
Proof.
  intros [HB Hcur].
  destruct (decide (determineCurrentBreakpoint (_width s) B = _currentBreakpoint s))
    as [Heq|Hne].
  - exists s. split; [by apply resize_unchanged with B|done].
  - eexists. split; [by apply resize_changed|].
    split; [|apply determine_active_over].
    change (read_breakpoints (set_currentBreakpoint ?v ?x)) with (read_breakpoints x).
    by rewrite enter_read_breakpoints, exit_read_breakpoints.
Qed.

Lemma onResize_keeps (e_width : Z) (s : State) :
  holds_over B s → ∃ s', onResize e_width s = Some s' ∧ holds_over B s'.
Proof. intros H. unfold onResize. by apply resize_keeps. Qed.

Lemma call_resize_handlers_keeps (n : nat) (e_width : Z) (s : State) :
  holds_over B s → ∃ s', call_resize_handlers n e_width s = Some s' ∧ holds_over B s'.
Proof.
  revert s. induction n as [|n IH]; intros s H; [by exists s|].
  destruct (onResize_keeps e_width s H) as (s1 & Hs1 & H1).
  destruct (IH s1 H1) as (s' & Hs' & H').
  exists s'. cbn [call_resize_handlers]. by rewrite Hs1.
Qed.

Lemma getCurrent_keeps (s : State) :
  holds_over B s → ∃ r, _getCurrent s = Some r ∧ holds_over B r.2.
Proof.
  intros [HB Hcur]. unfold _getCurrent, _determineCurrentBreakpoint.
  rewrite HB. cbn. eexists. split; [done|].
  split; [exact HB|apply determine_active_over].
Qed.

Lemma getConfig_keeps (s : State) :
  holds_over B s → ∃ r, _getConfig s = Some r ∧ holds_over B r.2.
Proof.
  intros [HB Hcur]. unfold read_breakpoints in HB.
  destruct (breakpoints (_options s)) as [r|] eqn:Hr; [|done]. cbn in HB.
  destruct (getConfig_returns s r B Hr HB) as [Hget Hfresh]. cbn zeta in Hget, Hfresh.
  eexists. split; [exact Hget|]. split; [|exact Hcur].
  unfold read_breakpoints. cbn [snd _options set_arrays]. rewrite Hr. cbn.
  apply (read_array_fresh s _ (fresh (dom (arrays s))) r B Hfresh); [|exact HB].
  intros l' Hne. by rewrite lookup_insert_ne.
Qed.

Lemma reset_keeps (s : State) : holds_over B s → holds_over B (_reset s).
Proof.
  intros [HB Hcur]. split; [|by left].
  unfold _reset. cbn zeta.
  change (read_breakpoints (set_currentBreakpoint ?v ?x)) with (read_breakpoints x).
  by rewrite exit_read_breakpoints.
Qed.

Lemma step_keeps (e : event) (s : State) :
  holds_over B s → ∃ s', step e s = Some s' ∧ holds_over B s'.
Proof.
  intros H. destruct e as [w| | | |]; cbn [step].
  - by apply call_resize_handlers_keeps.
  - unfold deliver_focus. destruct (focus_listener s); [by apply resize_keeps|by exists s].
  - destruct (getCurrent_keeps s H) as (r & -> & Hr). by exists r.2.
  - destruct (getConfig_keeps s H) as (r & -> & Hr). by exists r.2.
  - exists (_reset s). split; [done|by apply reset_keeps].
Qed.

Lemma run_keeps (es : list event) (s : State) :
  holds_over B s → ∃ s', run es s = Some s' ∧ holds_over B s'.
Proof.
  revert s. induction es as [|e es IH]; intros s H; [by exists s|].
  destruct (step_keeps e s H) as (s1 & Hs1 & H1).
  destruct (IH s1 H1) as (s' & Hs' & H').
  exists s'. cbn [run]. by rewrite Hs1.
Qed.
End Invariant.

(** C9, as amended.  From a state [configure] has returned, every
    sequence of resize events, focus events, [getCurrent], [getConfig]
    and [reset] calls runs to a state in which the configured
    breakpoints are ascending and the active value is a member of them,
    the sentinel -1, or [null] (what [reset] stores). *)
Theorem configured_tracker_invariant
    (settings : Settings) (s0 s1 : State) (es : list event) :
  _configure settings s0 = Some s1 →
  ∃ s, run es s1 = Some s ∧
       breakpoints_ascending s ∧ active_is_member_sentinel_or_null s.
Proof.
  intros Hconf. apply configure_inv in Hconf as (arr & Harr & ->).
  destruct (run_keeps (_numericSort arr) es (configured settings arr s0))
    as (s & Hrun & HB & Hcur).
  { split; [apply configured_read_breakpoints|].
    destruct (configured_fields settings arr s0) as (_ & -> & _).
    apply determine_active_over. }
  exists s. split; [exact Hrun|]. split.
  - exists (_numericSort arr). split; [exact HB|apply numericSort_ascending].
  - exists (_numericSort arr). by split.
Qed.

(** ** The code at concrete inputs *)

Lemma at_768_configured :
  _configure (mkSettings None None) (loaded 800 ∅) = Some at_768.
Proof. by apply configure_returns. Qed.

Lemma at_zero_configured :
  _configure with_callers_array (loaded 50 callers_heap) = Some at_zero.
Proof. by apply configure_returns. Qed.

Example scenario_600_then_1300 :
  ∃ s1 s2,
    _configure (mkSettings None None) (loaded 600 ∅) = Some s1 ∧
    _currentBreakpoint s1 = JNum 480 ∧
    deliver_resize 1300 s1 = Some s2 ∧
    _currentBreakpoint s2 = JNum 1200 ∧
    triggered s2 = triggered s1 ++ [("exit480", JNum 480); ("exit", JNum 480);
                                    ("enter1200", JNum 1200); ("enter", JNum 1200)] ∧
    body_classList s2 = ["breakpoint-1200"].
Proof.
  eexists _, _. split; [by apply (configure_returns _ default_breakpoints)|].
  split; [reflexivity|]. split; [vm_compute; reflexivity|]. by vm_compute.
Qed.

Lemma resize_same_bucket_is_silent_witness :
  read_breakpoints at_768 = Some default_breakpoints ∧
  _currentBreakpoint at_768 = determineCurrentBreakpoint 900 default_breakpoints ∧
  _currentBreakpoint at_768 = determineCurrentBreakpoint (_width at_768) default_breakpoints ∧
  onResize 900 at_768 = Some (set_width 900 at_768) ∧
  deliver_resize 900 at_768 = Some (set_width 900 at_768) ∧
  deliver_focus at_768 = Some at_768.
Proof.
  assert (read_breakpoints at_768 = Some default_breakpoints) as HB by reflexivity.
  destruct (resize_same_bucket_is_silent at_768 default_breakpoints 900 HB) as [Hr Hf].
  split; [exact HB|]. split; [reflexivity|]. split; [reflexivity|].
  destruct (Hr eq_refl) as [H1 H2]. destruct (Hf eq_refl) as [_ H3].
  split; [exact H1|]. split; [exact H2|exact H3].
Defined.

Lemma guarded_breakpoint_has_no_effect_witness :
  (∃ n, JNum (-1) = JNum n ∧ n <= 0) ∧
  _enterBreakpoint (JNum (-1)) at_768 = at_768 ∧
  _exitBreakpoint (JNum (-1)) at_768 = at_768.
Proof.
  assert (∃ n, JNum (-1) = JNum n ∧ n <= 0) as H
    by (exists (-1); split; [reflexivity|lia]).
  split; [exact H|].
  exact (guarded_breakpoint_has_no_effect at_768 (JNum (-1)) (or_intror H)).
Defined.

(** C5 at a concrete input.  After [configure()] at width 800 and
    [reset()], the exit signals for 768 have been emitted once, the
    active value is [null] and the resize handlers are gone; but
    [_resize] is still a focus listener, and a focus event emits the
    enter signals for 768 and makes 768 active again. *)
Theorem focus_after_reset_still_notifies :
  _configure (mkSettings None None) (loaded 800 ∅) = Some at_768 ∧
  _currentBreakpoint at_768 = JNum 768 ∧
  triggered at_768_reset = triggered at_768 ++ exit_signals (JNum 768) ∧
  _currentBreakpoint at_768_reset = JNull ∧
  resize_handlers at_768_reset = 0%nat ∧
  deliver_resize 1300 at_768_reset = Some at_768_reset ∧
  focus_listener at_768_reset = true ∧
  ∃ s, deliver_focus at_768_reset = Some s ∧
       triggered s = triggered at_768_reset ++ enter_signals (JNum 768) ∧
       _currentBreakpoint s = JNum 768 ∧
       body_classList s = ["breakpoint-768"].
Proof.
  split; [exact at_768_configured|]. split; [reflexivity|].
  split; [reflexivity|]. split; [reflexivity|]. split; [reflexivity|].
  split; [reflexivity|]. split; [reflexivity|].
  eexists. split; [vm_compute; reflexivity|]. by vm_compute.
Qed.

Lemma configure_merges_and_keeps_defaults_witness :
  defaults_breakpoints (loaded 50 callers_heap) = default_breakpoints ∧
  Forall (allocated (loaded 50 callers_heap))
         ([with_callers_array] ++ [mkSettings None None]) ∧
  ∃ s', configure_all [with_callers_array; mkSettings None None]
                      (loaded 50 callers_heap) = Some s' ∧
        _options s' = {| classBody := Some true; breakpoints := Some DefaultsArr |} ∧
        read_breakpoints s' = Some [320; 480; 768; 992; 1200] ∧
        defaults_breakpoints s' = [320; 480; 768; 992; 1200].
Proof.
  assert (Forall (allocated (loaded 50 callers_heap))
                 ([with_callers_array] ++ [mkSettings None None])) as Hall.
  { repeat constructor. eexists. reflexivity. }
  split; [reflexivity|]. split; [exact Hall|].
  destruct (configure_merges_and_keeps_defaults [with_callers_array]
              (mkSettings None None) (loaded 50 callers_heap) eq_refl Hall)
    as (s & s' & arr & Hrun & Harr & Hconf & Ho & Hnone & Hread & _ & _ & _ & Hd).
  exists s'. split.
  - cbn [configure_all] in Hrun |- *.
    destruct (_configure with_callers_array (loaded 50 callers_heap)) as [s1|]; [|discriminate].
    cbn [mbind option_bind] in Hrun |- *. injection Hrun as ->.
    rewrite Hconf. reflexivity.
  - split; [exact Ho|]. split; [|exact Hd].
    rewrite Hread, (Hnone eq_refl). reflexivity.
Defined.

Lemma configure_sorts_callers_array_witness :
  s_breakpoints with_callers_array = Some 1%positive ∧
  arrays (loaded 50 callers_heap) !! 1%positive = Some [500; 0; 100] ∧
  ∃ s', _configure with_callers_array (loaded 50 callers_heap) = Some s' ∧
        arrays s' !! 1%positive = Some [0; 100; 500] ∧
        breakpoints (_options s') = Some (CallerArr 1%positive).
Proof.
  assert (arrays (loaded 50 callers_heap) !! 1%positive = Some [500; 0; 100]) as Harr
    by reflexivity.
  split; [reflexivity|]. split; [exact Harr|].
  destruct (configure_sorts_callers_array with_callers_array 1%positive [500; 0; 100]
              (loaded 50 callers_heap) eq_refl Harr)
    as (s' & Hconf & Hsorted & _ & _ & Hb & _).
  exists s'. split; [exact Hconf|]. split; [exact Hsorted|exact Hb].
Defined.

(** C9 as claimed fails after [reset()]: the active value is [null],
    which is neither one of the breakpoints nor -1. *)
Lemma reset_leaves_null :
  _configure (mkSettings None None) (loaded 800 ∅) = Some at_768 ∧
  run [CallReset] at_768 = Some at_768_reset ∧
  _currentBreakpoint at_768_reset = JNull ∧
  ¬ active_is_member_or_sentinel at_768_reset.
Proof.
  split; [exact at_768_configured|]. split; [reflexivity|]. split; [reflexivity|].
  intros (B & v & _ & Hcur & _). discriminate.
Qed.

Lemma configured_tracker_invariant_witness :
  _configure (mkSettings None None) (loaded 800 ∅) = Some at_768 ∧
  ∃ s, run [OnResize 1300; CallReset; OnFocus; CallGetCurrent; CallGetConfig] at_768 = Some s ∧
       breakpoints_ascending s ∧ active_is_member_sentinel_or_null s.
Proof.
  assert (_configure (mkSettings None None) (loaded 800 ∅) = Some at_768) as Hconf
    by (vm_compute; reflexivity).
  split; [exact Hconf|].
  exact (configured_tracker_invariant (mkSettings None None) (loaded 800 ∅) at_768
           [OnResize 1300; CallReset; OnFocus; CallGetCurrent; CallGetConfig] Hconf).
Defined.

(** * Further properties of the code *)

(** ** The bucket search on arbitrary arrays *)

(** [scan_reached] without positivity: it is enough that no later
    element is 0, the one number [!nextbreakpoint] takes for a missing
    element. *)
Lemma scan_reached_general (w : Z) (l : list Z) (prev : jsval) (b : Z) :
  b <= w → strictly_ascending (b :: l) → Forall (λ x, x ≠ 0) l →
  ∃ v, scan w prev (b :: l) = JNum v ∧ v ∈ b :: l ∧ v <= w ∧
       ∀ x, x ∈ b :: l → x <= w → x <= v.
Proof.
  revert prev b. induction l as [|n l IH]; intros prev b Hb Hs Hnz.
  - exists b. cbn [scan].
    split; [by destruct (js_not prev && js_le (JNum w) (JNum b))|].
    split; [left|]. split; [done|].
    intros x Hx _. apply list_elem_of_singleton in Hx. lia.
  - apply StronglySorted_inv in Hs as [Hs Hlt].
    apply Forall_cons in Hnz as [Hn0 Hnz].
    pose proof Hlt as Hlt'. apply Forall_cons in Hlt' as [Hbn _].
    assert (∀ x, x ∈ b :: n :: l → x = b ∨ n <= x) as Hcases.
    { intros x Hx. apply elem_of_cons in Hx as [->|Hx]; [by left|right].
      apply elem_of_cons in Hx as [->|Hx]; [lia|].
      apply StronglySorted_inv in Hs as [_ Hnl].
      rewrite Forall_forall in Hnl. specialize (Hnl _ Hx). lia. }
    assert (js_not (JNum n) = false) as Hnot by (cbn; lia).
    destruct (Z.lt_ge_cases w n) as [Hwn|Hwn].
    + exists b. split.
      * cbn [scan]. rewrite Hnot.
        destruct (js_not prev && js_le (JNum w) (JNum b)); [done|].
        assert (js_ge (JNum w) (JNum b) && js_lt (JNum w) (JNum n) = true) as ->; [|done].
        unfold js_ge, js_le, js_lt; cbn. apply andb_true_iff. split; lia.
      * split; [left|]. split; [done|].
        intros x Hx Hxw. destruct (Hcases x Hx); lia.
    + destruct (IH (JNum b) n Hwn Hs Hnz) as (v & Hv & Hin & Hvw & Hmax).
      exists v. split.
      * cbn [scan] in Hv |- *. rewrite Hnot.
        assert (js_not prev && js_le (JNum w) (JNum b) = false) as ->.
        { apply andb_false_iff. right. unfold js_le; cbn. lia. }
        assert (js_ge (JNum w) (JNum b) && js_lt (JNum w) (JNum n) = false) as ->; [|done].
        apply andb_false_iff. right. unfold js_lt; cbn. lia.
      * split; [by right|]. split; [done|].
        intros x Hx Hxw. apply elem_of_cons in Hx as [->|Hx]; [|by apply Hmax].
        assert (n <= v) by (apply Hmax; [left|done]). lia.
Qed.

Lemma determine_bucket_general (B : list Z) (w : Z) :
  strictly_ascending B → zero_free_tail B → B ≠ [] →
  ∃ v, determineCurrentBreakpoint w B = JNum v ∧ v ∈ B ∧ bucket_of B w v.
Proof.
  intros Hs Hnz Hne. rewrite determine_scan. destruct B as [|b l]; [done|].
  unfold zero_free_tail in Hnz. cbn [tail] in Hnz.
  destruct (Z.le_gt_cases b w) as [Hbw|Hbw].
  - destruct (scan_reached_general w l JUndefined b Hbw Hs Hnz)
      as (v & Hv & Hin & Hvw & Hmax).
    exists v. split; [done|]. split; [done|]. by left.
  - exists b. split.
    + cbn [scan]. assert (js_not JUndefined && js_le (JNum w) (JNum b) = true) as ->; [|done].
      unfold js_le; cbn. lia.
    + split; [left|]. right.
      apply StronglySorted_inv in Hs as [_ Hlt]. rewrite Forall_forall in Hlt.
      split; intros x Hx; apply elem_of_cons in Hx as [->|Hx];
        try lia; specialize (Hlt _ Hx); lia.
Qed.

Lemma all_positive_zero_free (B : list Z) : all_positive B → zero_free_tail B.
Proof.
  intros H. unfold zero_free_tail. destruct B as [|b l]; [constructor|].
  apply Forall_cons in H as [_ H]. cbn. eapply Forall_impl; [exact H|].
  intros x Hx. cbn in Hx. lia.
Qed.

Lemma bucket_of_unique (B : list Z) (w v v' : Z) :
  v ∈ B → v' ∈ B → bucket_of B w v → bucket_of B w v' → v = v'.
Proof.
  intros Hv Hv' [[H1 H2]|[H1 H2]] [[H1' H2']|[H1' H2']].
  - specialize (H2 _ Hv' H1'). specialize (H2' _ Hv H1). lia.
  - specialize (H1' _ Hv). lia.
  - specialize (H1 _ Hv'). lia.
  - specialize (H2 _ Hv'). specialize (H2' _ Hv). lia.
Qed.

(** X1.  The search needs neither positive breakpoints nor a non-zero
    first one: on a strictly ascending array in which no element after
    the first is 0 (negative breakpoints included) a non-empty array
    yields the member that is the largest one not above the width, or
    the smallest one when the width is below all. *)
Theorem determine_bucket_without_positivity (B : list Z) (w : Z) :
  strictly_ascending B → zero_free_tail B → B ≠ [] →
  ∃ v, determineCurrentBreakpoint w B = JNum v ∧ v ∈ B ∧ bucket_of B w v.
Proof. apply determine_bucket_general. Qed.

Lemma determine_bucket_without_positivity_witness :
  strictly_ascending [-5; 10] ∧ zero_free_tail [-5; 10] ∧
  determineCurrentBreakpoint 3 [-5; 10] = JNum (-5) ∧ bucket_of [-5; 10] 3 (-5).
Proof.
  assert (strictly_ascending [-5; 10]) as Hs.
  { unfold strictly_ascending. repeat (constructor; [|repeat constructor; lia]). constructor. }
  assert (zero_free_tail [-5; 10]) as Hnz.
  { unfold zero_free_tail. cbn. repeat constructor. lia. }
  split; [exact Hs|]. split; [exact Hnz|].
  destruct (determine_bucket_without_positivity [-5; 10] 3 Hs Hnz) as (v & Hv & _ & Hb);
    [done|].
  assert (v = -5) as -> by (vm_compute in Hv; congruence).
  split; [reflexivity|exact Hb].
Defined.

(** X2.  A 0 that is not the first element ends the search: whatever
    the width and whatever follows, the result is one of the elements
    before the 0 ([!nextbreakpoint] takes the 0 for the end of the
    array). *)
Theorem zero_breakpoint_hides_the_rest (w : Z) (before after : list Z) :
  before ≠ [] →
  ∃ v, determineCurrentBreakpoint w (before ++ 0 :: after) = JNum v ∧ v ∈ before.
Proof.
  intros Hne. rewrite determine_scan. generalize JUndefined as prev.
  induction before as [|b l IH]; intros prev; [done|].
  cbn [app scan].
  destruct (js_not prev && js_le (JNum w) (JNum b)).
  { exists b. split; [done|left]. }
  destruct l as [|n l].
  { cbn [app]. exists b. split; [done|left]. }
  cbn [app].
  destruct (js_not (JNum n)).
  { exists b. split; [done|left]. }
  destruct (js_ge (JNum w) (JNum b) && js_lt (JNum w) (JNum n)).
  { exists b. split; [done|left]. }
  destruct (IH ltac:(done) (JNum b)) as (v & Hv & Hin).
  exists v. split; [exact Hv|by right].
Qed.

Lemma zero_breakpoint_hides_the_rest_witness :
  [-5] ≠ [] ∧ determineCurrentBreakpoint 20 ([-5] ++ 0 :: [10]) = JNum (-5).
Proof.
  assert ([-5] ≠ ([] : list Z)) as Hne by discriminate.
  split; [exact Hne|].
  destruct (zero_breakpoint_hides_the_rest 20 [-5] [10] Hne) as (v & Hv & Hin).
  rewrite Hv. apply list_elem_of_singleton in Hin. by rewrite Hin.
Defined.

(** X3.  The loop never runs off the end of a non-empty array: it
    returns at the last index at the latest, so whatever the order or
    content of the array the result is one of its elements.  The empty
    array gives -1, and -1 comes from nothing else than the empty array
    or an array that holds -1. *)
Theorem determine_member_unless_empty (w : Z) (B : list Z) :
  (B = [] → determineCurrentBreakpoint w B = JNum (-1)) ∧
  (B ≠ [] → ∃ v, determineCurrentBreakpoint w B = JNum v ∧ v ∈ B) ∧
  (determineCurrentBreakpoint w B = JNum (-1) → B = [] ∨ -1 ∈ B).
Proof.
  assert (B ≠ [] → ∃ v, determineCurrentBreakpoint w B = JNum v ∧ v ∈ B) as Hmem.
  { intros Hne. rewrite determine_scan. by apply scan_member. }
  split; [by intros ->|]. split; [exact Hmem|].
  intros Hminus. destruct (decide (B = [])) as [->|Hne]; [by left|right].
  destruct (Hmem Hne) as (v & Hv & Hin). congruence.
Qed.

Lemma determine_member_unless_empty_witness :
  determineCurrentBreakpoint 7 [] = JNum (-1) ∧
  (∃ v, determineCurrentBreakpoint 7 [9; 2; 4] = JNum v ∧ v ∈ [9; 2; 4]) ∧
  determineCurrentBreakpoint 5 [-1] = JNum (-1) ∧ ([-1] = [] ∨ -1 ∈ [-1]).
Proof.
  destruct (determine_member_unless_empty 7 [9; 2; 4]) as (_ & H & _).
  destruct (determine_member_unless_empty 5 [-1]) as (_ & _ & Hminus).
  split; [reflexivity|]. split; [apply H; discriminate|].
  split; [reflexivity|]. apply Hminus. reflexivity.
Defined.

Lemma strictly_ascending_last_max (B : list Z) (m x : Z) :
  strictly_ascending B → last B = Some m → x ∈ B → x <= m.
Proof.
  intros Hs. revert m x. induction Hs as [|b l Hl IH Hb]; intros m x Hlast Hx; [done|].
  destruct l as [|n l].
  - cbn in Hlast. injection Hlast as <-. apply list_elem_of_singleton in Hx. lia.
  - change (last (b :: n :: l)) with (last (n :: l)) in Hlast.
    apply elem_of_cons in Hx as [->|Hx]; [|by apply IH].
    assert (n <= m) by (apply IH; [done|left]).
    apply Forall_cons in Hb as [Hbn _]. lia.
Qed.

Lemma strictly_ascending_head_min (B : list Z) (b x : Z) :
  strictly_ascending B → head B = Some b → x ∈ B → b <= x.
Proof.
  intros Hs Hhead Hx. destruct B as [|b' l]; [done|].
  cbn in Hhead. injection Hhead as ->.
  apply StronglySorted_inv in Hs as [_ Hlt]. rewrite Forall_forall in Hlt.
  apply elem_of_cons in Hx as [->|Hx]; [lia|]. specialize (Hlt _ Hx). lia.
Qed.

(** X4.  The bucket grows with the width: on a strictly ascending array
    (no 0 after the first element) a wider window never yields a
    smaller breakpoint. *)
Theorem determine_monotone (B : list Z) (w1 w2 v1 v2 : Z) :
  strictly_ascending B → zero_free_tail B → w1 <= w2 →
  determineCurrentBreakpoint w1 B = JNum v1 →
  determineCurrentBreakpoint w2 B = JNum v2 →
  v1 <= v2.
Proof.
  intros Hs Hnz Hw H1 H2. destruct (decide (B = [])) as [->|Hne].
  { cbn in H1, H2. injection H1 as <-. injection H2 as <-. lia. }
  destruct (determine_bucket_general B w1 Hs Hnz Hne) as (u1 & Hu1 & Hin1 & Hb1).
  destruct (determine_bucket_general B w2 Hs Hnz Hne) as (u2 & Hu2 & Hin2 & Hb2).
  assert (u1 = v1) as -> by congruence. assert (u2 = v2) as -> by congruence.
  destruct Hb1 as [[Hle1 Hmax1]|[Hbelow1 Hmin1]].
  - destruct Hb2 as [[Hle2 Hmax2]|[Hbelow2 Hmin2]].
    + apply Hmax2; [done|lia].
    + specialize (Hbelow2 _ Hin1). lia.
  - by apply Hmin1.
Qed.

Lemma determine_monotone_witness :
  strictly_ascending default_breakpoints ∧ zero_free_tail default_breakpoints ∧
  600 <= 1300 ∧
  determineCurrentBreakpoint 600 default_breakpoints = JNum 480 ∧
  determineCurrentBreakpoint 1300 default_breakpoints = JNum 1200 ∧
  480 <= 1200.
Proof.
  assert (strictly_ascending default_breakpoints) as Hs.
  { unfold strictly_ascending, default_breakpoints.
    repeat (constructor; [|repeat constructor; lia]). constructor. }
  assert (zero_free_tail default_breakpoints) as Hnz.
  { unfold zero_free_tail, default_breakpoints. cbn. repeat constructor; lia. }
  assert (600 <= 1300) as Hw by lia.
  split; [exact Hs|]. split; [exact Hnz|]. split; [exact Hw|].
  split; [reflexivity|]. split; [reflexivity|].
  exact (determine_monotone default_breakpoints 600 1300 480 1200 Hs Hnz Hw eq_refl eq_refl).
Defined.

(** X5.  On a strictly ascending array (no 0 after the first element):
    a width that is itself a breakpoint yields that breakpoint; every
    width at or above the largest breakpoint yields the largest; every
    width at or below the smallest yields the smallest. *)
Theorem determine_at_the_bounds (B : list Z) (w : Z) :
  strictly_ascending B → zero_free_tail B →
  (w ∈ B → determineCurrentBreakpoint w B = JNum w) ∧
  (∀ m, last B = Some m → m <= w → determineCurrentBreakpoint w B = JNum m) ∧
  (∀ b, head B = Some b → w <= b → determineCurrentBreakpoint w B = JNum b).
Proof.
  intros Hs Hnz.
  assert (∀ u, u ∈ B → bucket_of B w u → determineCurrentBreakpoint w B = JNum u) as Hby.
  { intros u Hu Hbu.
    destruct (determine_bucket_general B w Hs Hnz) as (v & Hv & Hin & Hb).
    { intros ->. by apply elem_of_nil in Hu. }
    rewrite Hv. f_equal. by apply (bucket_of_unique B w). }
  split; [|split].
  - intros Hw. apply Hby; [done|]. left. split; [lia|]. intros x _ Hx. exact Hx.
  - intros m Hlast Hm.
    assert (m ∈ B) as Hin.
    { destruct B as [|b l] using rev_ind; [done|].
      rewrite last_snoc in Hlast. injection Hlast as ->.
      apply elem_of_app. right. left. }
    apply Hby; [done|]. left. split; [done|].
    intros x Hx _. by apply (strictly_ascending_last_max B).
  - intros b Hhead Hb.
    assert (b ∈ B) as Hin.
    { destruct B as [|b' l]; [done|]. cbn in Hhead. injection Hhead as ->. left. }
    apply Hby; [done|].
    destruct (decide (w = b)) as [->|Hne].
    + left. split; [lia|]. intros x _ Hx. exact Hx.
    + right. split; intros x Hx;
        pose proof (strictly_ascending_head_min B b x Hs Hhead Hx); lia.
Qed.

Lemma determine_at_the_bounds_witness :
  strictly_ascending default_breakpoints ∧ zero_free_tail default_breakpoints ∧
  determineCurrentBreakpoint 768 default_breakpoints = JNum 768 ∧
  determineCurrentBreakpoint 5000 default_breakpoints = JNum 1200 ∧
  determineCurrentBreakpoint 50 default_breakpoints = JNum 320.
Proof.
  assert (strictly_ascending default_breakpoints) as Hs.
  { unfold strictly_ascending, default_breakpoints.
    repeat (constructor; [|repeat constructor; lia]). constructor. }
  assert (zero_free_tail default_breakpoints) as Hnz.
  { unfold zero_free_tail, default_breakpoints. cbn. repeat constructor; lia. }
  split; [exact Hs|]. split; [exact Hnz|].
  destruct (determine_at_the_bounds default_breakpoints 768 Hs Hnz) as (Hexact & _ & _).
  destruct (determine_at_the_bounds default_breakpoints 5000 Hs Hnz) as (_ & Htop & _).
  destruct (determine_at_the_bounds default_breakpoints 50 Hs Hnz) as (_ & _ & Hbottom).
  split; [|split].
  - apply Hexact. unfold default_breakpoints. do 2 right. left.
  - apply (Htop 1200); [reflexivity|lia].
  - apply (Hbottom 320); [reflexivity|lia].
Defined.

(** ** Sorting *)

(** X6.  [_numericSort] returns the ascending arrangement of the
    elements it is given (duplicates kept), which is the only ascending
    arrangement there is; sorting a sorted array changes nothing. *)
Theorem numericSort_is_the_ascending_permutation (arr : list Z) :
  ascending (_numericSort arr) ∧ _numericSort arr ≡ₚ arr ∧
  (∀ sorted, StronglySorted Z.le sorted → sorted ≡ₚ arr → _numericSort arr = sorted) ∧
  _numericSort (_numericSort arr) = _numericSort arr.
Proof.
  split; [apply numericSort_ascending|]. split; [apply numericSort_perm|].
  split; [intros sorted; apply numericSort_unique|].
  apply numericSort_sorted_id, numericSort_strongly_sorted.
Qed.

Lemma numericSort_is_the_ascending_permutation_witness :
  StronglySorted Z.le [0; 100; 100; 500] ∧ [0; 100; 100; 500] ≡ₚ [500; 100; 0; 100] ∧
  _numericSort [500; 100; 0; 100] = [0; 100; 100; 500].
Proof.
  assert (StronglySorted Z.le [0; 100; 100; 500]) as Hs.
  { repeat (constructor; [|repeat constructor; lia]). constructor. }
  assert ([0; 100; 100; 500] ≡ₚ [500; 100; 0; 100]) as Hp.
  { exact (numericSort_perm [500; 100; 0; 100]). }
  split; [exact Hs|]. split; [exact Hp|].
  destruct (numericSort_is_the_ascending_permutation [500; 100; 0; 100])
    as (_ & _ & Huniq & _).
  exact (Huniq _ Hs Hp).
Defined.

(** ** getCurrent, reset and the focus listener *)

Lemma guarded_false_positive (v : jsval) :
  guarded v = false → ∃ n, v = JNum n ∧ 0 < n.
Proof.
  unfold guarded, js_le. destruct v as [| |n]; cbn; try done.
  intros H. apply orb_false_iff in H as [_ H]. exists n. split; [done|lia].
Qed.

Lemma set_currentBreakpoint_same (s : State) :
  set_currentBreakpoint (_currentBreakpoint s) s = s.
Proof. by destruct s. Qed.

Lemma set_width_same (s : State) : set_width (_width s) s = s.
Proof. by destruct s. Qed.

(** X7.  [getCurrent()] returns the bucket of the stored width and
    stores it as the active breakpoint without any notification or
    class change; a second call returns the same and changes nothing;
    and a [_resize] that follows at the same width finds no change, so
    a transition that [getCurrent()] has seen is never announced. *)
Theorem getCurrent_stores_silently (s : State) (B : list Z) :
  read_breakpoints s = Some B →
  let v := determineCurrentBreakpoint (_width s) B in
  let s' := set_currentBreakpoint v s in
  _getCurrent s = Some (v, s') ∧
  triggered s' = triggered s ∧ body_classList s' = body_classList s ∧
  _getCurrent s' = Some (v, s') ∧
  _resize s' = Some s'.
Proof.
  intros HB v s'.
  assert (read_breakpoints s' = Some B) as HB' by exact HB.
  split.
  { unfold _getCurrent, _determineCurrentBreakpoint. by rewrite HB. }
  split; [reflexivity|]. split; [reflexivity|]. split.
  - unfold _getCurrent, _determineCurrentBreakpoint. rewrite HB'. cbn.
    do 2 f_equal.
  - by apply resize_unchanged with B.
Qed.

Lemma getCurrent_stores_silently_witness :
  read_breakpoints at_768_reset = Some default_breakpoints ∧
  _getCurrent at_768_reset = Some (JNum 768, set_currentBreakpoint (JNum 768) at_768_reset) ∧
  _resize (set_currentBreakpoint (JNum 768) at_768_reset)
  = Some (set_currentBreakpoint (JNum 768) at_768_reset).
Proof.
  assert (read_breakpoints at_768_reset = Some default_breakpoints) as HB by reflexivity.
  split; [exact HB|].
  destruct (getCurrent_stores_silently at_768_reset default_breakpoints HB)
    as (Hget & _ & _ & _ & Hres).
  split; [exact Hget|exact Hres].
Defined.

Lemma reset_read_breakpoints (s : State) :
  read_breakpoints (_reset s) = read_breakpoints s.
Proof.
  unfold _reset. cbn zeta.
  change (read_breakpoints (set_currentBreakpoint ?v ?x)) with (read_breakpoints x).
  by rewrite exit_read_breakpoints.
Qed.

(** X8.  After [reset()], [_resize] is a focus listener whatever the
    state was before, and no resize handler is left.  On a tracker over
    breakpoints where the stored width lies in a positive bucket [v], a
    delivered resize then does nothing, not even store the width, while
    a focus event emits the two enter signals for [v] and makes [v]
    active again. *)
Theorem focus_after_reset_reenters (s : State) (B : list Z) (v : Z) :
  read_breakpoints s = Some B →
  determineCurrentBreakpoint (_width s) B = JNum v → 0 < v →
  focus_listener (_reset s) = true ∧ resize_handlers (_reset s) = 0%nat ∧
  (∀ e_width, deliver_resize e_width (_reset s) = Some (_reset s)) ∧
  ∃ s', deliver_focus (_reset s) = Some s' ∧
        triggered s' = triggered (_reset s) ++ enter_signals (JNum v) ∧
        _currentBreakpoint s' = JNum v.
Proof.
  intros HB Hv Hpos.
  destruct (reset_effects s) as (Hcur & Hw & _ & Hn & Hf).
  split; [exact Hf|]. split; [exact Hn|]. split.
  { intros e_width. unfold deliver_resize. by rewrite Hn. }
  assert (read_breakpoints (_reset s) = Some B) as HB'
    by by rewrite reset_read_breakpoints.
  assert (determineCurrentBreakpoint (_width (_reset s)) B = JNum v) as Hv'
    by by rewrite Hw.
  assert (determineCurrentBreakpoint (_width (_reset s)) B ≠ _currentBreakpoint (_reset s))
    as Hne by (rewrite Hv', Hcur; discriminate).
  pose proof (resize_changed (_reset s) B HB' Hne) as Hres.
  rewrite Hv', Hcur in Hres.
  eexists. split.
  { unfold deliver_focus. rewrite Hf. exact Hres. }
  split; [|reflexivity].
  cbn [triggered set_currentBreakpoint].
  rewrite enter_triggered, exit_triggered, guarded_positive by done.
  cbn [guarded js_not orb]. by rewrite app_nil_r.
Qed.

Lemma focus_after_reset_reenters_witness :
  read_breakpoints at_768 = Some default_breakpoints ∧
  determineCurrentBreakpoint (_width at_768) default_breakpoints = JNum 768 ∧
  0 < 768 ∧
  ∃ s', deliver_focus (_reset at_768) = Some s' ∧
        triggered s' = triggered (_reset at_768) ++ enter_signals (JNum 768).
Proof.
  assert (read_breakpoints at_768 = Some default_breakpoints) as HB by reflexivity.
  assert (determineCurrentBreakpoint (_width at_768) default_breakpoints = JNum 768)
    as Hv by reflexivity.
  assert (0 < 768) as Hpos by lia.
  split; [exact HB|]. split; [exact Hv|]. split; [exact Hpos|].
  destruct (focus_after_reset_reenters at_768 default_breakpoints 768 HB Hv Hpos)
    as (_ & _ & _ & s' & Hs' & Ht & _).
  exists s'. split; [exact Hs'|exact Ht].
Defined.

(** X9.  [reset()] is not idempotent across a [getCurrent()]: the call
    in between stores the bucket [v] of the width as active again, so
    the focus event that follows is silent, and a second [reset()]
    emits the exit signals for [v] once more although [v] was never
    entered again. *)
Theorem getCurrent_between_resets (s : State) (B : list Z) (v : Z) :
  read_breakpoints s = Some B →
  determineCurrentBreakpoint (_width s) B = JNum v → 0 < v →
  ∃ s2, _getCurrent (_reset s) = Some (JNum v, s2) ∧
        triggered s2 = triggered (_reset s) ∧
        deliver_focus s2 = Some s2 ∧
        triggered (_reset s2) = triggered (_reset s) ++ exit_signals (JNum v).
Proof.
  intros HB Hv Hpos.
  destruct (reset_effects s) as (_ & Hw & _ & _ & Hf).
  assert (read_breakpoints (_reset s) = Some B) as HB'
    by by rewrite reset_read_breakpoints.
  assert (determineCurrentBreakpoint (_width (_reset s)) B = JNum v) as Hv'
    by by rewrite Hw.
  exists (set_currentBreakpoint (JNum v) (_reset s)). split.
  { unfold _getCurrent, _determineCurrentBreakpoint. rewrite HB'.
    cbn [mbind option_bind]. by rewrite Hv'. }
  split; [reflexivity|]. split.
  - unfold deliver_focus.
    change (focus_listener (set_currentBreakpoint ?x ?y)) with (focus_listener y).
    rewrite Hf. apply resize_unchanged with B; [exact HB'|]. by rewrite <- Hv'.
  - destruct (reset_effects (set_currentBreakpoint (JNum v) (_reset s)))
      as (_ & _ & -> & _).
    cbn [_currentBreakpoint triggered set_currentBreakpoint].
    by rewrite guarded_positive.
Qed.

Lemma getCurrent_between_resets_witness :
  read_breakpoints at_768 = Some default_breakpoints ∧
  determineCurrentBreakpoint (_width at_768) default_breakpoints = JNum 768 ∧
  0 < 768 ∧
  ∃ s2, _getCurrent (_reset at_768) = Some (JNum 768, s2) ∧
        triggered (_reset s2) = triggered (_reset at_768) ++ exit_signals (JNum 768).
Proof.
  assert (read_breakpoints at_768 = Some default_breakpoints) as HB by reflexivity.
  assert (determineCurrentBreakpoint (_width at_768) default_breakpoints = JNum 768)
    as Hv by reflexivity.
  assert (0 < 768) as Hpos by lia.
  split; [exact HB|]. split; [exact Hv|]. split; [exact Hpos|].
  destruct (getCurrent_between_resets at_768 default_breakpoints 768 HB Hv Hpos)
    as (s2 & Hget & _ & _ & Ht).
  exists s2. split; [exact Hget|exact Ht].
Defined.

(** X10.  Before the first [configure], [_options] is empty:
    [getConfig()] returns an object without keys and changes nothing,
    [getCurrent()] and [_resize] fail on the missing breakpoints array,
    and [reset()] emits nothing but leaves [_resize] registered as focus
    listener, so that the next focus event fails as well. *)
Theorem nothing_configured (s : State) :
  breakpoints (_options s) = None →
  _getConfig s = Some ({| s_classBody := classBody (_options s);
                          s_breakpoints := None |}, s) ∧
  _getCurrent s = None ∧ _resize s = None ∧
  (∀ e_width, onResize e_width s = None) ∧
  (guarded (_currentBreakpoint s) = true → triggered (_reset s) = triggered s) ∧
  deliver_focus (_reset s) = None.
Proof.
  intros Hnone.
  assert (∀ x, breakpoints (_options x) = None → _resize x = None) as Hres.
  { intros x Hx. unfold _resize, _determineCurrentBreakpoint, read_breakpoints.
    by rewrite Hx. }
  split; [unfold _getConfig; by rewrite Hnone|].
  split.
  { unfold _getCurrent, _determineCurrentBreakpoint, read_breakpoints. by rewrite Hnone. }
  split; [by apply Hres|]. split; [intros e_width; by apply Hres|].
  destruct (reset_effects s) as (_ & _ & Ht & _ & Hf). split.
  - intros Hg. rewrite Ht, Hg. apply app_nil_r.
  - unfold deliver_focus. rewrite Hf. apply Hres.
    assert (read_breakpoints (_reset s) = None) as Hrb.
    { rewrite reset_read_breakpoints. unfold read_breakpoints. by rewrite Hnone. }
    unfold read_breakpoints in Hrb.
    destruct (breakpoints (_options (_reset s))) as [r|] eqn:Hr; [|done].
    exfalso. unfold _reset in Hr. cbn zeta in Hr.
    change (_options (set_currentBreakpoint ?v ?x)) with (_options x) in Hr.
    pose proof (exit_frame (_currentBreakpoint (_unbind s)) (_unbind s)) as Hx.
    cbn zeta in Hx. destruct Hx as (_ & _ & Ho & _).
    rewrite Ho in Hr. cbn in Hr. congruence.
Qed.

Lemma nothing_configured_witness :
  breakpoints (_options (loaded 800 ∅)) = None ∧
  _getConfig (loaded 800 ∅) = Some (mkSettings None None, loaded 800 ∅) ∧
  _getCurrent (loaded 800 ∅) = None ∧
  deliver_focus (_reset (loaded 800 ∅)) = None.
Proof.
  assert (breakpoints (_options (loaded 800 ∅)) = None) as Hnone by reflexivity.
  split; [exact Hnone|].
  destruct (nothing_configured (loaded 800 ∅) Hnone) as (Hc & Hg & _ & _ & _ & Hf).
  split; [exact Hc|]. split; [exact Hg|exact Hf].
Defined.

(** ** Handlers, classes and notifications *)

Lemma enter_classes (v : jsval) (s : State) :
  body_classList (_enterBreakpoint v s)
  = if guarded v || negb (truthy_flag (classBody (_options s)))
       || bool_decide (class_of v ∈ body_classList s)
    then body_classList s
    else body_classList s ++ [class_of v].
Proof.
  unfold _enterBreakpoint, guarded, class_of.
  destruct (js_not v || js_le v (JNum 0)); [done|].
  unfold trigger, addClass. cbn [orb negb].
  destruct (truthy_flag _); cbn [orb negb]; [|done].
  by destruct (bool_decide _).
Qed.

Lemma exit_classes (v : jsval) (s : State) :
  body_classList (_exitBreakpoint v s)
  = if guarded v || negb (truthy_flag (classBody (_options s)))
    then body_classList s
    else filter (λ c, c ≠ class_of v) (body_classList s).
Proof.
  unfold _exitBreakpoint, guarded, class_of.
  destruct (js_not v || js_le v (JNum 0)); [done|].
  unfold trigger, removeClass. cbn [orb negb].
  by destruct (truthy_flag _).
Qed.

(** [_resize] returns whenever the breakpoints array is there; it keeps
    the width, the options, the arrays and the listeners, and leaves the
    bucket of the stored width active. *)
Lemma resize_result (s : State) (B : list Z) :
  read_breakpoints s = Some B →
  ∃ s', _resize s = Some s' ∧
        read_breakpoints s' = Some B ∧ _width s' = _width s ∧
        _options s' = _options s ∧
        _currentBreakpoint s' = determineCurrentBreakpoint (_width s) B ∧
        resize_handlers s' = resize_handlers s ∧
        focus_listener s' = focus_listener s.
Proof.
  intros HB.
  destruct (decide (determineCurrentBreakpoint (_width s) B = _currentBreakpoint s))
    as [Heq|Hne].
  - exists s. by split; [apply resize_unchanged with B|].
  - eexists. split; [by apply resize_changed|].
    pose proof (enter_frame (determineCurrentBreakpoint (_width s) B)
                  (_exitBreakpoint (_currentBreakpoint s) s)) as He.
    pose proof (exit_frame (_currentBreakpoint s) s) as Hx.
    cbn zeta in He, Hx.
    destruct He as (Hw & _ & Ho & _ & _ & Hn & Hf).
    destruct Hx as (Hw' & _ & Ho' & _ & _ & Hn' & Hf').
    split; [|split; [|split; [|split; [|split]]]].
    + change (read_breakpoints (set_currentBreakpoint ?v ?x)) with (read_breakpoints x).
      by rewrite enter_read_breakpoints, exit_read_breakpoints.
    + cbn [_width set_currentBreakpoint]. by rewrite Hw, Hw'.
    + cbn [_options set_currentBreakpoint]. by rewrite Ho, Ho'.
    + reflexivity.
    + cbn [resize_handlers set_currentBreakpoint]. by rewrite Hn, Hn'.
    + cbn [focus_listener set_currentBreakpoint]. by rewrite Hf, Hf'.
Qed.

(** X11.  Every [configure] registers one more resize handler, but the
    handlers registered twice act once: delivering a resize through any
    number of handlers (at least one) gives the state the first handler
    leaves, with the delivered width stored and its bucket active. *)
Theorem repeated_handlers_act_once (s : State) (B : list Z) (e_width : Z) (n : nat) :
  read_breakpoints s = Some B →
  resize_handlers s = S n →
  ∃ s', onResize e_width s = Some s' ∧
        deliver_resize e_width s = Some s' ∧
        _width s' = e_width ∧
        _currentBreakpoint s' = determineCurrentBreakpoint e_width B.
Proof.
  intros HB Hn.
  destruct (resize_result (set_width e_width s) B HB)
    as (s' & Hs' & HB' & Hw & _ & Hcur & _).
  cbn [_width set_width] in Hw, Hcur.
  exists s'. split; [exact Hs'|]. split; [|by split].
  assert (onResize e_width s' = Some s') as Hagain.
  { unfold onResize. rewrite <- Hw, set_width_same.
    apply resize_unchanged with B; [exact HB'|]. by rewrite Hw. }
  unfold deliver_resize. rewrite Hn. cbn [call_resize_handlers].
  unfold onResize at 1. rewrite Hs'. cbn [mbind option_bind].
  clear Hn. induction n as [|n IH]; [done|].
  cbn [call_resize_handlers]. rewrite Hagain. exact IH.
Qed.

Lemma repeated_handlers_act_once_witness :
  read_breakpoints (signalWindow_on at_768) = Some default_breakpoints ∧
  resize_handlers (signalWindow_on at_768) = 2%nat ∧
  ∃ s', onResize 1300 (signalWindow_on at_768) = Some s' ∧
        deliver_resize 1300 (signalWindow_on at_768) = Some s' ∧
        _currentBreakpoint s' = JNum 1200.
Proof.
  assert (read_breakpoints (signalWindow_on at_768) = Some default_breakpoints) as HB
    by reflexivity.
  assert (resize_handlers (signalWindow_on at_768) = 2%nat) as Hn by reflexivity.
  split; [exact HB|]. split; [exact Hn|].
  destruct (repeated_handlers_act_once (signalWindow_on at_768) default_breakpoints
              1300 1 HB Hn) as (s' & H1 & H2 & _ & Hcur).
  exists s'. split; [exact H1|]. split; [exact H2|exact Hcur].
Defined.

(** X12.  [configure] never leaves a breakpoint: called on a tracker
    that is already configured it emits no exit signal and removes no
    class.  It makes the bucket of the stored width over the sorted
    array active, emits the two enter signals for it (none for a
    bucket that is 0 or negative), adds its class at the end of the
    class list when [classBody] is not switched off and the class is
    not there yet, registers one more resize handler and the focus
    listener. *)
Theorem configure_enters_and_never_exits (settings : Settings) (arr : list Z) (s : State) :
  read_array s (configured_array settings) = Some arr →
  let cur := determineCurrentBreakpoint (_width s) (_numericSort arr) in
  ∃ s', _configure settings s = Some s' ∧
        _currentBreakpoint s' = cur ∧ _width s' = _width s ∧
        triggered s' = triggered s ++ (if guarded cur then [] else enter_signals cur) ∧
        body_classList s'
        = (if guarded cur || negb (default true (s_classBody settings))
              || bool_decide (class_of cur ∈ body_classList s)
           then body_classList s
           else body_classList s ++ [class_of cur]) ∧
        resize_handlers s' = S (resize_handlers s) ∧
        focus_listener s' = true.
Proof.
  intros Harr cur. exists (configured settings arr s).
  split; [by apply configure_returns|].
  destruct (configured_fields settings arr s) as (Hw & Hcur & _ & _ & _ & Hn & Hf).
  split; [exact Hcur|]. split; [exact Hw|].
  split; [|split; [|split; [exact Hn|exact Hf]]].
  - unfold configured. cbn zeta. rewrite enter_triggered. fold cur.
    f_equal. by destruct (configured_array settings).
  - unfold configured. cbn zeta. rewrite enter_classes. fold cur.
    set (written := write_array _ _ _).
    assert (body_classList (set_currentBreakpoint cur (_bind written)) = body_classList s
            ∧ classBody (_options (set_currentBreakpoint cur (_bind written)))
              = Some (default true (s_classBody settings))) as [-> ->].
    { subst written. by destruct (configured_array settings). }
    reflexivity.
Qed.

Lemma configure_enters_and_never_exits_witness :
  read_array (set_arrays callers_heap at_768) (configured_array with_callers_array)
  = Some [500; 0; 100] ∧
  ∃ s', _configure with_callers_array (set_arrays callers_heap at_768) = Some s' ∧
        _currentBreakpoint s' = JNum 500 ∧
        triggered s' = triggered at_768 ++ enter_signals (JNum 500) ∧
        body_classList s' = ["breakpoint-768"] ∧
        resize_handlers s' = 2%nat.
Proof.
  assert (read_array (set_arrays callers_heap at_768) (configured_array with_callers_array)
          = Some [500; 0; 100]) as Harr by reflexivity.
  split; [exact Harr|].
  destruct (configure_enters_and_never_exits with_callers_array [500; 0; 100]
              (set_arrays callers_heap at_768) Harr)
    as (s' & Hconf & Hcur & _ & Ht & Hc & Hn & _).
  exists s'. split; [exact Hconf|]. split; [exact Hcur|].
  split; [exact Ht|]. split; [exact Hc|exact Hn].
Defined.

(** ** Invariants along the events *)

(** What every operation of [step] keeps, every run keeps. *)
Lemma run_invariant (P : State → Prop) :
  (∀ w s s', P s → onResize w s = Some s' → P s') →
  (∀ s s', P s → _resize s = Some s' → P s') →
  (∀ s r, P s → _getCurrent s = Some r → P r.2) →
  (∀ s r, P s → _getConfig s = Some r → P r.2) →
  (∀ s, P s → P (_reset s)) →
  ∀ es s s', P s → run es s = Some s' → P s'.
Proof.
  intros Hon Hres Hcur Hconf Hreset es.
  assert (∀ n w s s', P s → call_resize_handlers n w s = Some s' → P s') as Hcall.
  { induction n as [|n IH]; intros w s s' HP Hrun; cbn [call_resize_handlers] in Hrun.
    - by injection Hrun as <-.
    - destruct (onResize w s) as [s1|] eqn:H1; [|done]. cbn in Hrun.
      eapply IH; [|exact Hrun]. by eapply Hon. }
  induction es as [|e es IH]; intros s s' HP Hrun; cbn [run] in Hrun.
  - by injection Hrun as <-.
  - destruct (step e s) as [s1|] eqn:H1; [|done]. cbn in Hrun.
    eapply IH; [|exact Hrun].
    destruct e as [w| | | |]; cbn [step] in H1.
    + by eapply Hcall.
    + unfold deliver_focus in H1. destruct (focus_listener s).
      * by eapply Hres.
      * by injection H1 as <-.
    + destruct (_getCurrent s) as [r|] eqn:Hr; [|done]. cbn in H1.
      injection H1 as <-. by eapply Hcur.
    + destruct (_getConfig s) as [r|] eqn:Hr; [|done]. cbn in H1.
      injection H1 as <-. by eapply Hconf.
    + injection H1 as <-. by apply Hreset.
Qed.

Lemma configured_holds_over (settings : Settings) (arr : list Z) (s : State) :
  holds_over (_numericSort arr) (configured settings arr s).
Proof.
  split; [apply configured_read_breakpoints|].
  destruct (configured_fields settings arr s) as (_ & -> & _).
  apply determine_active_over.
Qed.

(** What [getConfig] leaves of the state: everything but the new
    array. *)
Lemma getConfig_frame (s : State) (r : Settings * State) (B : list Z) :
  read_breakpoints s = Some B →
  _getConfig s = Some r →
  read_breakpoints r.2 = Some B ∧ _width r.2 = _width s ∧
  _currentBreakpoint r.2 = _currentBreakpoint s ∧ _options r.2 = _options s ∧
  body_classList r.2 = body_classList s ∧ triggered r.2 = triggered s.
Proof.
  intros HB Hget. pose proof HB as HB0. unfold read_breakpoints in HB.
  destruct (breakpoints (_options s)) as [a|] eqn:Ha; [|done]. cbn in HB.
  destruct (getConfig_returns s a B Ha HB) as [Hret Hfresh]. cbn zeta in Hret, Hfresh.
  rewrite Hret in Hget. injection Hget as <-.
  split; [|done].
  unfold read_breakpoints. cbn [snd _options set_arrays]. rewrite Ha. cbn.
  apply (read_array_fresh s _ (fresh (dom (arrays s))) a B Hfresh); [|exact HB].
  intros l' Hne. by rewrite lookup_insert_ne.
Qed.

Lemma getCurrent_result (s : State) (r : jsval * State) (B : list Z) :
  read_breakpoints s = Some B →
  _getCurrent s = Some r →
  r.2 = set_currentBreakpoint (determineCurrentBreakpoint (_width s) B) s.
Proof.
  intros HB Hget. unfold _getCurrent, _determineCurrentBreakpoint in Hget.
  rewrite HB in Hget. cbn in Hget. by injection Hget as <-.
Qed.

Lemma filter_out_only (c : string) : filter (λ x, x ≠ c) [c] = [].
Proof. rewrite filter_cons. by destruct (decide (c ≠ c)). Qed.

Section ClassFollowsActive.
Variable B : list Z.

(** The step of [_resize] from a state whose class, if any, is that of
    the active breakpoint, whether or not the width still agrees. *)
Lemma resize_class (s s' : State) :
  read_breakpoints s = Some B →
  (body_classList s = [] ∨
   ∃ v, 0 < v ∧ _currentBreakpoint s = JNum v ∧
        truthy_flag (classBody (_options s)) = true ∧
        body_classList s = [class_of (JNum v)]) →
  _resize s = Some s' →
  class_follows_active B s'.
Proof.
  intros HB Hclass Hrun.
  destruct (resize_result s B HB) as (s1 & Hs1 & HB1 & Hw1 & Ho1 & Hcur1 & _).
  assert (s1 = s') as -> by congruence. split; [exact HB1|].
  destruct (decide (determineCurrentBreakpoint (_width s) B = _currentBreakpoint s))
    as [Heq|Hne].
  - rewrite (resize_unchanged _ B) in Hrun by done. injection Hrun as <-.
    destruct Hclass as [Hnil|(v & Hpos & Hv & Hflag & Hc)]; [by left|].
    right. exists v. by rewrite Heq.
  - rewrite (resize_changed _ B) in Hrun by done.
    set (new := determineCurrentBreakpoint (_width s) B) in *.
    set (left_ := _exitBreakpoint (_currentBreakpoint s) s) in *.
    assert (body_classList left_ = []) as Hleft.
    { subst left_. rewrite exit_classes.
      destruct Hclass as [->|(v & Hpos & Hv & Hflag & ->)].
      - by destruct (_ || _).
      - rewrite Hv, Hflag, guarded_positive by done. cbn [orb negb].
        apply filter_out_only. }
    assert (_options left_ = _options s) as Holeft.
    { subst left_. pose proof (exit_frame (_currentBreakpoint s) s) as Hx.
      cbn zeta in Hx. by destruct Hx as (_ & _ & -> & _). }
    assert (body_classList s'
            = if guarded new || negb (truthy_flag (classBody (_options s)))
              then [] else [class_of new]) as Hc.
    { injection Hrun as <-. cbn [body_classList set_currentBreakpoint].
      rewrite enter_classes, Hleft, Holeft.
      rewrite (bool_decide_eq_false_2 (class_of new ∈ [])) by apply not_elem_of_nil.
      rewrite orb_false_r. by destruct (_ || _). }
    destruct (guarded new) eqn:Hg; cbn [orb] in Hc; [by left|].
    destruct (truthy_flag (classBody (_options s))) eqn:Hflag; cbn [negb] in Hc; [|by left].
    destruct (guarded_false_positive new Hg) as (n & Hn & Hpos).
    right. exists n. rewrite Hcur1, Ho1, Hw1. fold new. by rewrite Hc, Hn, Hflag.
Qed.

Lemma class_follows_onResize (w : Z) (s s' : State) :
  class_follows_active B s → onResize w s = Some s' → class_follows_active B s'.
Proof.
  intros [HB Hclass] Hrun. unfold onResize in Hrun.
  apply (resize_class (set_width w s) s'); [exact HB| |exact Hrun].
  destruct Hclass as [Hnil|(v & Hpos & Hv & Hflag & _ & Hc)]; [by left|].
  right. by exists v.
Qed.

Lemma class_follows_resize (s s' : State) :
  class_follows_active B s → _resize s = Some s' → class_follows_active B s'.
Proof.
  intros [HB Hclass] Hrun. apply (resize_class s s'); [exact HB| |exact Hrun].
  destruct Hclass as [Hnil|(v & Hpos & Hv & Hflag & _ & Hc)]; [by left|].
  right. by exists v.
Qed.

Lemma class_follows_getCurrent (s : State) (r : jsval * State) :
  class_follows_active B s → _getCurrent s = Some r → class_follows_active B r.2.
Proof.
  intros [HB Hclass] Hget. rewrite (getCurrent_result s r B HB Hget).
  split; [exact HB|].
  destruct Hclass as [Hnil|(v & Hpos & Hv & Hflag & Hsync & Hc)]; [by left|].
  right. exists v. by rewrite Hsync.
Qed.

Lemma class_follows_getConfig (s : State) (r : Settings * State) :
  class_follows_active B s → _getConfig s = Some r → class_follows_active B r.2.
Proof.
  intros [HB Hclass] Hget.
  destruct (getConfig_frame s r B HB Hget) as (HB' & Hw & Hcur & Ho & Hc & _).
  split; [exact HB'|]. rewrite Hw, Hcur, Ho, Hc. exact Hclass.
Qed.

Lemma reset_removes_class (s : State) :
  class_follows_active B s → body_classList (_reset s) = [].
Proof.
  intros [HB Hclass]. unfold _reset. cbn zeta.
  cbn [body_classList set_currentBreakpoint]. rewrite exit_classes.
  change (_currentBreakpoint (_unbind s)) with (_currentBreakpoint s).
  change (_options (_unbind s)) with (_options s).
  change (body_classList (_unbind s)) with (body_classList s).
  destruct Hclass as [->|(v & Hpos & Hv & Hflag & _ & ->)].
  - by destruct (_ || _).
  - rewrite Hv, Hflag, guarded_positive by done. cbn [orb negb].
    apply filter_out_only.
Qed.

Lemma class_follows_reset (s : State) :
  class_follows_active B s → class_follows_active B (_reset s).
Proof.
  intros H. split; [|left; by apply reset_removes_class].
  rewrite reset_read_breakpoints. by destruct H.
Qed.

Lemma class_follows_run (es : list event) (s s' : State) :
  class_follows_active B s → run es s = Some s' → class_follows_active B s'.
Proof.
  apply (run_invariant (class_follows_active B)).
  - apply class_follows_onResize.
  - apply class_follows_resize.
  - apply class_follows_getCurrent.
  - apply class_follows_getConfig.
  - apply class_follows_reset.
Qed.
End ClassFollowsActive.

Lemma configured_class_follows (settings : Settings) (arr : list Z) (s : State) :
  body_classList s = [] →
  class_follows_active (_numericSort arr) (configured settings arr s).
Proof.
  intros Hnil. split; [apply configured_read_breakpoints|].
  destruct (configured_fields settings arr s) as (Hw & Hcur & Ho & _).
  set (cur := determineCurrentBreakpoint (_width s) (_numericSort arr)) in *.
  assert (body_classList (configured settings arr s)
          = if guarded cur || negb (default true (s_classBody settings))
            then [] else [class_of cur]) as Hc.
  { unfold configured. cbn zeta. rewrite enter_classes. fold cur.
    set (written := write_array _ _ _).
    assert (body_classList (set_currentBreakpoint cur (_bind written)) = []
            ∧ classBody (_options (set_currentBreakpoint cur (_bind written)))
              = Some (default true (s_classBody settings))) as [-> ->].
    { subst written. rewrite <- Hnil. by destruct (configured_array settings). }
    rewrite (bool_decide_eq_false_2 (class_of cur ∈ [])) by apply not_elem_of_nil.
    rewrite orb_false_r. cbn [truthy_flag default]. by destruct (_ || _). }
  destruct (guarded cur) eqn:Hg; cbn [orb] in Hc; [by left|].
  destruct (default true (s_classBody settings)) eqn:Hflag; cbn [negb] in Hc; [|by left].
  destruct (guarded_false_positive cur Hg) as (n & Hn & Hpos).
  right. exists n. rewrite Hcur, Ho, Hw. fold cur. rewrite Hc, Hn.
  split; [done|]. split; [done|]. split; [|done].
  cbn. by rewrite Hflag.
Qed.

(** X13.  From a body without breakpoint classes, one [configure] and
    any sequence of resize events, focus events, [getCurrent],
    [getConfig] and [reset] calls leave at most one breakpoint class on
    the body, and when there is one it is the class of the active
    breakpoint; a [reset()] at any point leaves none. *)
Theorem body_class_follows_active
    (settings : Settings) (s0 s1 : State) (es : list event) :
  body_classList s0 = [] →
  _configure settings s0 = Some s1 →
  ∃ s, run es s1 = Some s ∧ at_most_the_active_class s ∧
       body_classList (_reset s) = [].
Proof.
  intros Hnil Hconf. apply configure_inv in Hconf as (arr & Harr & ->).
  destruct (run_keeps (_numericSort arr) es (configured settings arr s0)
              (configured_holds_over settings arr s0)) as (s & Hrun & _).
  pose proof (class_follows_run (_numericSort arr) es _ s
                (configured_class_follows settings arr s0 Hnil) Hrun) as Hinv.
  exists s. split; [exact Hrun|]. split.
  - destruct Hinv as [_ [Hn|(v & Hpos & Hv & _ & _ & Hc)]]; [by left|].
    right. by exists v.
  - by apply (reset_removes_class (_numericSort arr)).
Qed.

Lemma body_class_follows_active_witness :
  body_classList (loaded 800 ∅) = [] ∧
  _configure (mkSettings None None) (loaded 800 ∅) = Some at_768 ∧
  ∃ s, run [OnResize 1300; OnResize 400; CallGetCurrent] at_768 = Some s ∧
       at_most_the_active_class s ∧ body_classList s = ["breakpoint-320"].
Proof.
  assert (_configure (mkSettings None None) (loaded 800 ∅) = Some at_768) as Hconf
    by (vm_compute; reflexivity).
  split; [reflexivity|]. split; [exact Hconf|].
  destruct (body_class_follows_active (mkSettings None None) (loaded 800 ∅) at_768
              [OnResize 1300; OnResize 400; CallGetCurrent] eq_refl Hconf)
    as (s & Hrun & Hone & _).
  exists s. split; [exact Hrun|]. split; [exact Hone|].
  vm_compute in Hrun. injection Hrun as <-. reflexivity.
Defined.

Lemma enter_classes_off (v : jsval) (s : State) :
  truthy_flag (classBody (_options s)) = false →
  body_classList (_enterBreakpoint v s) = body_classList s.
Proof. intros H. rewrite enter_classes, H. cbn [negb]. by rewrite orb_true_r. Qed.

Lemma exit_classes_off (v : jsval) (s : State) :
  truthy_flag (classBody (_options s)) = false →
  body_classList (_exitBreakpoint v s) = body_classList s.
Proof. intros H. rewrite exit_classes, H. cbn [negb]. by rewrite orb_true_r. Qed.

Lemma exit_options (v : jsval) (s : State) : _options (_exitBreakpoint v s) = _options s.
Proof.
  pose proof (exit_frame v s) as H. cbn zeta in H. by destruct H as (_ & _ & -> & _).
Qed.

Lemma enter_options (v : jsval) (s : State) : _options (_enterBreakpoint v s) = _options s.
Proof.
  pose proof (enter_frame v s) as H. cbn zeta in H. by destruct H as (_ & _ & -> & _).
Qed.

Section ClassesUntouched.
Variable B : list Z.
Variable c : list string.

Lemma untouched_resize (s s' : State) :
  classes_untouched B c s → _resize s = Some s' → classes_untouched B c s'.
Proof.
  intros (HB & Hflag & Hc) Hrun.
  destruct (resize_result s B HB) as (s1 & Hs1 & HB1 & _ & Ho1 & _).
  assert (s1 = s') as -> by congruence.
  split; [exact HB1|]. split; [by rewrite Ho1|].
  destruct (decide (determineCurrentBreakpoint (_width s) B = _currentBreakpoint s))
    as [Heq|Hne].
  - rewrite (resize_unchanged _ B) in Hrun by done. by injection Hrun as <-.
  - rewrite (resize_changed _ B) in Hrun by done. injection Hrun as <-.
    cbn [body_classList set_currentBreakpoint].
    rewrite enter_classes_off by by rewrite exit_options.
    by rewrite exit_classes_off.
Qed.

Lemma untouched_run (es : list event) (s s' : State) :
  classes_untouched B c s → run es s = Some s' → classes_untouched B c s'.
Proof.
  apply (run_invariant (classes_untouched B c)).
  - intros w x x' H. unfold onResize. by apply untouched_resize.
  - apply untouched_resize.
  - intros x r (HB & Hflag & Hc) Hget. by rewrite (getCurrent_result x r B HB Hget).
  - intros x r (HB & Hflag & Hc) Hget.
    destruct (getConfig_frame x r B HB Hget) as (HB' & _ & _ & Ho & Hc' & _).
    split; [exact HB'|]. by rewrite Ho, Hc'.
  - intros x (HB & Hflag & Hc). split; [by rewrite reset_read_breakpoints|].
    unfold _reset. cbn zeta.
    cbn [_options body_classList set_currentBreakpoint].
    rewrite exit_options. split; [exact Hflag|].
    by rewrite exit_classes_off.
Qed.
End ClassesUntouched.

(** X14.  With [classBody: false] the tracker never touches the body
    classes: [configure] and every later resize event, focus event,
    [getCurrent], [getConfig] and [reset] leave the class list as it
    was before [configure]. *)
Theorem classBody_off_leaves_classes
    (settings : Settings) (s0 s1 : State) (es : list event) :
  s_classBody settings = Some false →
  _configure settings s0 = Some s1 →
  ∃ s, run es s1 = Some s ∧ body_classList s = body_classList s0.
Proof.
  intros Hoff Hconf. apply configure_inv in Hconf as (arr & Harr & ->).
  destruct (run_keeps (_numericSort arr) es (configured settings arr s0)
              (configured_holds_over settings arr s0)) as (s & Hrun & _).
  exists s. split; [exact Hrun|].
  assert (classes_untouched (_numericSort arr) (body_classList s0)
            (configured settings arr s0)) as Hstart.
  { split; [apply configured_read_breakpoints|].
    destruct (configured_fields settings arr s0) as (_ & _ & Ho & _).
    assert (truthy_flag (classBody (_options (configured settings arr s0))) = false) as Hflag
      by (rewrite Ho; cbn; by rewrite Hoff).
    split; [exact Hflag|].
    unfold configured in Hflag |- *. cbn zeta in Hflag |- *.
    rewrite enter_options in Hflag. rewrite enter_classes_off by exact Hflag.
    by destruct (configured_array settings). }
  by destruct (untouched_run _ _ es _ s Hstart Hrun) as (_ & _ & ->).
Qed.

Lemma classBody_off_leaves_classes_witness :
  s_classBody with_callers_array = Some false ∧
  _configure with_callers_array (loaded 50 callers_heap) = Some at_zero ∧
  ∃ s, run [OnResize 600; CallReset; OnFocus] at_zero = Some s ∧
       body_classList s = [] ∧ _currentBreakpoint s = JNum 500.
Proof.
  assert (_configure with_callers_array (loaded 50 callers_heap) = Some at_zero) as Hconf
    by (vm_compute; reflexivity).
  split; [reflexivity|]. split; [exact Hconf|].
  destruct (classBody_off_leaves_classes with_callers_array (loaded 50 callers_heap)
              at_zero [OnResize 600; CallReset; OnFocus] eq_refl Hconf)
    as (s & Hrun & Hc).
  exists s. split; [exact Hrun|]. split; [exact Hc|].
  vm_compute in Hrun. injection Hrun as <-. reflexivity.
Defined.

Section QuietOverEmpty.
Variable t : list (string * jsval).
Variable c : list string.

Lemma quiet_resize (s s' : State) :
  quiet_over_empty t c s → _resize s = Some s' → quiet_over_empty t c s'.
Proof.
  intros (HB & Hcur & Ht & Hc) Hrun.
  destruct (resize_result s [] HB) as (s1 & Hs1 & HB1 & _ & _ & Hcur1 & _).
  assert (s1 = s') as -> by congruence.
  split; [exact HB1|]. split; [right; exact Hcur1|].
  destruct Hcur as [Hnull|Hminus].
  - rewrite (resize_changed _ []) in Hrun by (by rewrite ?Hnull).
    injection Hrun as <-. rewrite Hnull.
    change (determineCurrentBreakpoint (_width s) []) with (JNum (-1)).
    rewrite (enter_guarded (JNum (-1))), (exit_guarded JNull) by done.
    by split.
  - rewrite (resize_unchanged _ []) in Hrun by (by rewrite ?Hminus).
    injection Hrun as <-. by split.
Qed.

Lemma quiet_run (es : list event) (s s' : State) :
  quiet_over_empty t c s → run es s = Some s' → quiet_over_empty t c s'.
Proof.
  apply (run_invariant (quiet_over_empty t c)).
  - intros w x x' H. unfold onResize. by apply quiet_resize.
  - apply quiet_resize.
  - intros x r (HB & Hcur & Ht & Hc) Hget. rewrite (getCurrent_result x r [] HB Hget).
    split; [exact HB|]. split; [by right|]. by split.
  - intros x r (HB & Hcur & Ht & Hc) Hget.
    destruct (getConfig_frame x r [] HB Hget) as (HB' & _ & Hcur' & _ & Hc' & Ht').
    split; [exact HB'|]. by rewrite Hcur', Hc', Ht'.
  - intros x (HB & Hcur & Ht & Hc). split; [by rewrite reset_read_breakpoints|].
    split; [by left|].
    assert (guarded (_currentBreakpoint x) = true) as Hg by (by destruct Hcur as [->| ->]).
    unfold _reset. cbn zeta.
    change (_currentBreakpoint (_unbind x)) with (_currentBreakpoint x).
    rewrite exit_guarded by exact Hg. by split.
Qed.
End QuietOverEmpty.

(** X15.  Configured with an empty breakpoints array the tracker stays
    silent for good: [configure] makes the sentinel -1 active without a
    notification, and no later resize event, focus event, [getCurrent],
    [getConfig] or [reset] emits a notification or changes the body
    classes. *)
Theorem empty_breakpoints_stay_silent
    (settings : Settings) (l : loc) (s0 : State) (es : list event) :
  s_breakpoints settings = Some l →
  arrays s0 !! l = Some [] →
  ∃ s1 s, _configure settings s0 = Some s1 ∧
          _currentBreakpoint s1 = JNum (-1) ∧
          run es s1 = Some s ∧
          triggered s = triggered s0 ∧ body_classList s = body_classList s0.
Proof.
  intros Hl Harr.
  assert (read_array s0 (configured_array settings) = Some []) as Hread.
  { unfold configured_array. by rewrite Hl. }
  destruct (run_keeps (_numericSort []) es (configured settings [] s0)
              (configured_holds_over settings [] s0)) as (s & Hrun & _).
  exists (configured settings [] s0), s.
  split; [by apply configure_returns|].
  destruct (configured_fields settings [] s0) as (_ & Hcur & _).
  split; [exact Hcur|]. split; [exact Hrun|].
  assert (quiet_over_empty (triggered s0) (body_classList s0) (configured settings [] s0))
    as Hstart.
  { split; [apply configured_read_breakpoints|]. split; [right; exact Hcur|].
    unfold configured. cbn zeta.
    change (determineCurrentBreakpoint (_width s0) (_numericSort [])) with (JNum (-1)).
    rewrite enter_guarded by done. by destruct (configured_array settings). }
  by destruct (quiet_run _ _ es _ s Hstart Hrun) as (_ & _ & -> & ->).
Qed.

Lemma empty_breakpoints_stay_silent_witness :
  s_breakpoints (mkSettings None (Some 1%positive)) = Some 1%positive ∧
  arrays (loaded 800 {[1%positive := []]}) !! 1%positive = Some [] ∧
  ∃ s1 s, _configure (mkSettings None (Some 1%positive))
                     (loaded 800 {[1%positive := []]}) = Some s1 ∧
          run [OnResize 300; CallReset; OnFocus] s1 = Some s ∧
          triggered s = [] ∧ body_classList s = [].
Proof.
  assert (arrays (loaded 800 {[1%positive := []]}) !! 1%positive = Some []) as Harr
    by reflexivity.
  split; [reflexivity|]. split; [exact Harr|].
  destruct (empty_breakpoints_stay_silent (mkSettings None (Some 1%positive)) 1%positive
              (loaded 800 {[1%positive := []]}) [OnResize 300; CallReset; OnFocus]
              eq_refl Harr)
    as (s1 & s & Hconf & _ & Hrun & Ht & Hc).
  exists s1, s. split; [exact Hconf|]. split; [exact Hrun|]. split; [exact Ht|exact Hc].
Defined.

(** ** The notifications that can be emitted *)

Lemma enter_signals_well_formed (v : jsval) :
  guarded v = false → Forall well_formed_signal (enter_signals v).
Proof.
  intros Hg. destruct (guarded_false_positive v Hg) as (n & -> & Hpos).
  unfold enter_signals. repeat constructor; exists n; cbn;
    (split; [done|split; [done|]]); set_solver.
Qed.

Lemma exit_signals_well_formed (v : jsval) :
  guarded v = false → Forall well_formed_signal (exit_signals v).
Proof.
  intros Hg. destruct (guarded_false_positive v Hg) as (n & -> & Hpos).
  unfold exit_signals. repeat constructor; exists n; cbn;
    (split; [done|split; [done|]]); set_solver.
Qed.

Lemma enter_keeps_well_formed (v : jsval) (s : State) :
  signals_well_formed s → signals_well_formed (_enterBreakpoint v s).
Proof.
  unfold signals_well_formed. intros H. rewrite enter_triggered.
  apply Forall_app. split; [exact H|].
  destruct (guarded v) eqn:Hg; [constructor|by apply enter_signals_well_formed].
Qed.

Lemma exit_keeps_well_formed (v : jsval) (s : State) :
  signals_well_formed s → signals_well_formed (_exitBreakpoint v s).
Proof.
  unfold signals_well_formed. intros H. rewrite exit_triggered.
  apply Forall_app. split; [exact H|].
  destruct (guarded v) eqn:Hg; [constructor|by apply exit_signals_well_formed].
Qed.

Lemma resize_keeps_well_formed (s s' : State) :
  signals_well_formed s → _resize s = Some s' → signals_well_formed s'.
Proof.
  intros H Hrun. unfold _resize in Hrun.
  destruct (_determineCurrentBreakpoint s) as [new|]; [|done]. cbn in Hrun.
  destruct (js_strict_eq new (_currentBreakpoint s)).
  - by injection Hrun as <-.
  - injection Hrun as <-. unfold signals_well_formed.
    cbn [triggered set_currentBreakpoint].
    by apply enter_keeps_well_formed, exit_keeps_well_formed.
Qed.

Lemma run_keeps_well_formed (es : list event) (s s' : State) :
  signals_well_formed s → run es s = Some s' → signals_well_formed s'.
Proof.
  apply (run_invariant signals_well_formed).
  - intros w x x' H. unfold onResize. by apply resize_keeps_well_formed.
  - apply resize_keeps_well_formed.
  - intros x r H Hget. unfold _getCurrent in Hget.
    destruct (_determineCurrentBreakpoint x); [|done]. cbn in Hget.
    by injection Hget as <-.
  - intros x r H Hget. unfold _getConfig in Hget.
    destruct (breakpoints (_options x)) as [a|].
    + destruct (read_array x a); [|done]. cbn in Hget. by injection Hget as <-.
    + by injection Hget as <-.
  - intros x H. unfold _reset. cbn zeta. unfold signals_well_formed.
    cbn [triggered set_currentBreakpoint].
    by apply exit_keeps_well_formed.
Qed.

(** X16.  No notification with a payload that is not a positive
    breakpoint is ever emitted: after [configure] and any sequence of
    resize events, focus events, [getCurrent], [getConfig] and [reset]
    calls, every notification emitted carries a positive number [n] and
    is named [enter], [exit], ['enter' + n] or ['exit' + n], the number
    spelled as JavaScript spells it ([enter768], [enter1e+21]). *)
Theorem only_positive_breakpoints_are_announced
    (settings : Settings) (s0 s1 : State) (es : list event) :
  signals_well_formed s0 →
  _configure settings s0 = Some s1 →
  ∃ s, run es s1 = Some s ∧ signals_well_formed s.
Proof.
  intros Hwf Hconf. apply configure_inv in Hconf as (arr & Harr & ->).
  destruct (run_keeps (_numericSort arr) es (configured settings arr s0)
              (configured_holds_over settings arr s0)) as (s & Hrun & _).
  exists s. split; [exact Hrun|].
  apply (run_keeps_well_formed es (configured settings arr s0)); [|exact Hrun].
  unfold configured. cbn zeta. apply enter_keeps_well_formed.
  unfold signals_well_formed. by destruct (configured_array settings).
Qed.

Lemma only_positive_breakpoints_are_announced_witness :
  signals_well_formed (loaded 50 callers_heap) ∧
  _configure with_callers_array (loaded 50 callers_heap) = Some at_zero ∧
  ∃ s, run [OnResize 150; OnResize 20; CallReset] at_zero = Some s ∧
       signals_well_formed s ∧
       triggered s = [("enter100", JNum 100); ("enter", JNum 100);
                      ("exit100", JNum 100); ("exit", JNum 100)].
Proof.
  assert (signals_well_formed (loaded 50 callers_heap)) as Hwf by constructor.
  assert (_configure with_callers_array (loaded 50 callers_heap) = Some at_zero) as Hconf
    by (vm_compute; reflexivity).
  split; [exact Hwf|]. split; [exact Hconf|].
  destruct (only_positive_breakpoints_are_announced with_callers_array
              (loaded 50 callers_heap) at_zero [OnResize 150; OnResize 20; CallReset]
              Hwf Hconf) as (s & Hrun & Hs).
  exists s. split; [exact Hrun|]. split; [exact Hs|].
  vm_compute in Hrun. injection Hrun as <-. reflexivity.
Defined.

(** ** The order of the caller's array *)

(** X17.  Only the elements of the breakpoints array matter, not the
    order in which the caller lists them: had the configured array held
    any rearrangement of its elements, [configure] would return the
    same state, the array rewritten in the same ascending order. *)
Theorem configure_ignores_the_order
    (settings : Settings) (arr arr' : list Z) (s : State) :
  read_array s (configured_array settings) = Some arr →
  arr' ≡ₚ arr →
  _configure settings (write_array (configured_array settings) arr' s)
  = _configure settings s ∧
  ∃ s', _configure settings s = Some s' ∧
        read_breakpoints s' = Some (_numericSort arr).
Proof.
  intros Harr Hperm.
  assert (_numericSort arr' = _numericSort arr) as Hsort.
  { apply numericSort_unique; [apply numericSort_strongly_sorted|].
    by rewrite numericSort_perm. }
  split.
  - rewrite (configure_returns settings arr s Harr).
    rewrite (configure_returns settings arr'
               (write_array (configured_array settings) arr' s))
      by apply read_array_write_same.
    f_equal. unfold configured. cbn zeta. rewrite Hsort.
    destruct (configured_array settings) as [|l]; [reflexivity|].
    assert (∀ (h : gmap loc (list Z)) x y, <[l:=x]> (<[l:=y]> h) = <[l:=x]> h) as Hins
      by (intros; apply insert_insert_eq).
    destruct s as [w c o d h b t n f].
    cbn [write_array set_arrays set_options _bind Dom_on signalWindow_on
         addEventListener_focus set_focus_listener set_resize_handlers
         set_currentBreakpoint arrays _width _currentBreakpoint _options
         defaults_breakpoints body_classList triggered resize_handlers focus_listener].
    by rewrite Hins.
  - exists (configured settings arr s). split; [by apply configure_returns|].
    apply configured_read_breakpoints.
Qed.

Lemma configure_ignores_the_order_witness :
  read_array (loaded 50 callers_heap) (configured_array with_callers_array)
  = Some [500; 0; 100] ∧
  [100; 500; 0] ≡ₚ [500; 0; 100] ∧
  _configure with_callers_array
    (write_array (configured_array with_callers_array) [100; 500; 0]
                 (loaded 50 callers_heap))
  = Some at_zero.
Proof.
  assert (read_array (loaded 50 callers_heap) (configured_array with_callers_array)
          = Some [500; 0; 100]) as Harr by reflexivity.
  assert ([100; 500; 0] ≡ₚ [500; 0; 100]) as Hperm.
  { change [100; 500; 0] with ([100] ++ [500; 0]).
    change [500; 0; 100] with ([500; 0] ++ [100]).
    apply Permutation_app_comm. }
  split; [exact Harr|]. split; [exact Hperm|].
  destruct (configure_ignores_the_order with_callers_array [500; 0; 100] [100; 500; 0]
              (loaded 50 callers_heap) Harr Hperm) as [Heq _].
  rewrite Heq. vm_compute. reflexivity.
Defined.

(** ** The tracker along its events *)

(** Every event of a tracker that has its breakpoints returns. *)
Lemma call_resize_handlers_returns (B : list Z) (n : nat) (w : Z) (s : State) :
  read_breakpoints s = Some B →
  ∃ s', call_resize_handlers n w s = Some s' ∧ read_breakpoints s' = Some B.
Proof.
  revert s. induction n as [|n IH]; intros s HB; [by exists s|].
  destruct (resize_result (set_width w s) B HB) as (s1 & Hs1 & HB1 & _).
  destruct (IH s1 HB1) as (s' & Hs' & HB').
  exists s'. cbn [call_resize_handlers]. unfold onResize. by rewrite Hs1.
Qed.

Lemma step_returns (B : list Z) (e : event) (s : State) :
  read_breakpoints s = Some B →
  ∃ s', step e s = Some s' ∧ read_breakpoints s' = Some B.
Proof.
  intros HB. destruct e as [w| | | |]; cbn [step].
  - by apply call_resize_handlers_returns.
  - unfold deliver_focus. destruct (focus_listener s); [|by exists s].
    destruct (resize_result s B HB) as (s' & Hs' & HB' & _). by exists s'.
  - unfold _getCurrent, _determineCurrentBreakpoint. rewrite HB. cbn.
    eexists. split; [done|]. exact HB.
  - pose proof HB as HB0. unfold read_breakpoints in HB0.
    destruct (breakpoints (_options s)) as [r|] eqn:Hr; [|done]. cbn in HB0.
    destruct (getConfig_returns s r B Hr HB0) as [Hget _]. cbn zeta in Hget.
    rewrite Hget. cbn. eexists. split; [done|].
    by destruct (getConfig_frame s _ B HB Hget) as (HB' & _).
  - exists (_reset s). split; [done|]. by rewrite reset_read_breakpoints.
Qed.

Lemma run_returns (B : list Z) (es : list event) (s : State) :
  read_breakpoints s = Some B →
  ∃ s', run es s = Some s' ∧ read_breakpoints s' = Some B.
Proof.
  revert s. induction es as [|e es IH]; intros s HB; [by exists s|].
  destruct (step_returns B e s HB) as (s1 & Hs1 & HB1).
  destruct (IH s1 HB1) as (s' & Hs' & HB').
  exists s'. cbn [run]. by rewrite Hs1.
Qed.


Section ActiveIsABucket.
Variable B : list Z.


End ActiveIsABucket.




(** ** getConfig at any point *)

Section OptionsAre.
Variable o : Options.
Variable B : list Z.

Lemma options_are_resize (s s' : State) :
  options_are o B s → _resize s = Some s' → options_are o B s'.
Proof.
  intros [HB Ho] Hrun.
  destruct (resize_result s B HB) as (s1 & Hs1 & HB1 & _ & Ho1 & _).
  assert (s1 = s') as -> by congruence. split; [exact HB1|]. by rewrite Ho1.
Qed.

Lemma options_are_run (es : list event) (s s' : State) :
  options_are o B s → run es s = Some s' → options_are o B s'.
Proof.
  apply (run_invariant (options_are o B)).
  - intros w x x' H. unfold onResize. by apply options_are_resize.
  - apply options_are_resize.
  - intros x r [HB Ho] Hget. by rewrite (getCurrent_result x r B HB Hget).
  - intros x r [HB Ho] Hget.
    destruct (getConfig_frame x r B HB Hget) as (HB' & _ & _ & Ho' & _).
    split; [exact HB'|]. by rewrite Ho'.
  - intros x [HB Ho]. split; [by rewrite reset_read_breakpoints|].
    unfold _reset. cbn zeta. cbn [_options set_currentBreakpoint].
    by rewrite exit_options.
Qed.

(** [getConfig] on a tracker with these options: the object returned
    has their value, its array is a new one, and a caller's write to it
    keeps the options and their array as they are. *)
Lemma getConfig_copy (s : State) :
  options_are o B s →
  ∃ config s' l,
    _getConfig s = Some (config, s') ∧
    value_of_options s = Some (classBody o, Some B) ∧
    value_of_object s' config = Some (classBody o, Some B) ∧
    s_breakpoints config = Some l ∧ arrays s !! l = None ∧
    ∀ a, let s2 := caller_write l a s' in
         options_are o B s2 ∧
         value_of_options s2 = Some (classBody o, Some B) ∧
         (∀ l', l' ≠ l → arrays s2 !! l' = arrays s !! l') ∧
         (_width s2, _currentBreakpoint s2, _options s2, defaults_breakpoints s2,
          body_classList s2, triggered s2, resize_handlers s2, focus_listener s2)
         = (_width s, _currentBreakpoint s, _options s, defaults_breakpoints s,
            body_classList s, triggered s, resize_handlers s, focus_listener s).
Proof.
  intros [HB Ho]. pose proof HB as HB0. unfold read_breakpoints in HB0.
  destruct (breakpoints (_options s)) as [r|] eqn:Hr; [|done]. cbn in HB0.
  destruct (getConfig_returns s r B Hr HB0) as [Hget Hfresh]. cbn zeta in Hget, Hfresh.
  set (l := fresh (dom (arrays s))) in *.
  pose proof (value_of_options_read s r B Hr HB0) as Hval. rewrite Ho in Hval.
  eexists _, _, l. split; [exact Hget|]. split; [exact Hval|].
  split; [|split; [reflexivity|split; [exact Hfresh|]]].
  { unfold value_of_object. cbn. rewrite lookup_insert_eq. cbn. by rewrite Ho. }
  intros a s2.
  assert (∀ l', l' ≠ l → arrays s2 !! l' = arrays s !! l') as Hframe.
  { intros l' Hne. subst s2. cbn. by rewrite !lookup_insert_ne. }
  assert (read_array s2 r = Some B) as Hread2
    by apply (read_array_fresh s (arrays s2) l r B Hfresh Hframe HB0).
  assert (breakpoints (_options s2) = Some r) as Hr2 by exact Hr.
  assert (read_breakpoints s2 = Some B) as HB2.
  { unfold read_breakpoints. by rewrite Hr2. }
  split; [by split|]. split.
  { rewrite (value_of_options_read s2 r B Hr2 Hread2).
    by replace (_options s2) with o. }
  split; [exact Hframe|reflexivity].
Qed.
End OptionsAre.

Lemma configured_options_are (settings : Settings) (arr : list Z) (s : State) :
  options_are (merged_over_defaults settings) (_numericSort arr)
              (configured settings arr s).
Proof.
  split; [apply configured_read_breakpoints|].
  by destruct (configured_fields settings arr s) as (_ & _ & -> & _).
Qed.

(** C7.  On a configured tracker, at any point of a sequence of resize
    events, focus events, [getCurrent], [getConfig] and [reset] calls,
    [getConfig()] returns an object whose value is the value of the
    configured options, breakpoints ascending, and whose array is a new
    one: whatever the caller writes to it, the closure variables and
    the arrays they reach are as before, and every later [getConfig()],
    whatever events come in between, returns the same value again. *)
Theorem getConfig_is_independent_copy
    (settings : Settings) (s0 s1 s : State) (es : list event) :
  _configure settings s0 = Some s1 →
  run es s1 = Some s →
  ∃ config s' l B,
    _getConfig s = Some (config, s') ∧
    _options s = merged_over_defaults settings ∧
    read_breakpoints s = Some B ∧ ascending B ∧
    value_of_options s = Some (classBody (_options s), Some B) ∧
    value_of_object s' config = value_of_options s ∧
    s_breakpoints config = Some l ∧ arrays s !! l = None ∧
    ∀ a, let s2 := caller_write l a s' in
         value_of_options s2 = value_of_options s ∧
         (∀ l', l' ≠ l → arrays s2 !! l' = arrays s !! l') ∧
         (_width s2, _currentBreakpoint s2, _options s2, defaults_breakpoints s2,
          body_classList s2, triggered s2, resize_handlers s2, focus_listener s2)
         = (_width s, _currentBreakpoint s, _options s, defaults_breakpoints s,
            body_classList s, triggered s, resize_handlers s, focus_listener s) ∧
         ∀ later, ∃ s3 config' s4,
           run later s2 = Some s3 ∧
           _getConfig s3 = Some (config', s4) ∧
           value_of_object s4 config' = value_of_options s.
Proof.
  intros Hconf Hrun. apply configure_inv in Hconf as (arr & Harr & ->).
  pose proof (options_are_run _ _ es _ s (configured_options_are settings arr s0) Hrun)
    as Hopt.
  set (o := merged_over_defaults settings) in *. set (B := _numericSort arr) in *.
  destruct (getConfig_copy o B s Hopt)
    as (config & s' & l & Hget & Hval & Hobj & Hl & Hfresh & Hind).
  destruct Hopt as [HB Ho].
  exists config, s', l, B. split; [exact Hget|]. split; [exact Ho|].
  split; [exact HB|]. split; [apply numericSort_ascending|].
  split; [by rewrite Hval, Ho|].
  split; [by rewrite Hval|]. split; [exact Hl|]. split; [exact Hfresh|].
  intros a s2. destruct (Hind a) as (Hopt2 & Hval2 & Hframe & Hsame).
  split; [by rewrite Hval|]. split; [exact Hframe|]. split; [exact Hsame|].
  intros later.
  destruct (run_returns B later s2 (proj1 Hopt2)) as (s3 & Hrun3 & _).
  pose proof (options_are_run o B later s2 s3 Hopt2 Hrun3) as Hopt3.
  destruct (getConfig_copy o B s3 Hopt3) as (config' & s4 & _ & Hget3 & _ & Hobj3 & _).
  exists s3, config', s4. split; [exact Hrun3|]. split; [exact Hget3|].
  by rewrite Hval.
Qed.

Lemma getConfig_is_independent_copy_witness :
  _configure with_callers_array (loaded 50 callers_heap) = Some at_zero ∧
  run [OnResize 600; CallReset] at_zero
  = Some (_reset (set_currentBreakpoint (JNum 500)
                    (_enterBreakpoint (JNum 500) (set_width 600 at_zero)))) ∧
  ∃ s config s' l,
    run [OnResize 600; CallReset] at_zero = Some s ∧
    _getConfig s = Some (config, s') ∧
    value_of_object s' config = Some (Some false, Some [0; 100; 500]) ∧
    s_breakpoints config = Some l ∧
    value_of_options (caller_write l [9; 9] s') = Some (Some false, Some [0; 100; 500]).
Proof.
  assert (_configure with_callers_array (loaded 50 callers_heap) = Some at_zero) as Hconf
    by (vm_compute; reflexivity).
  set (s := _reset (set_currentBreakpoint (JNum 500)
                      (_enterBreakpoint (JNum 500) (set_width 600 at_zero)))).
  assert (run [OnResize 600; CallReset] at_zero = Some s) as Hrun
    by (vm_compute; reflexivity).
  split; [exact Hconf|]. split; [exact Hrun|].
  destruct (getConfig_is_independent_copy with_callers_array
              (loaded 50 callers_heap) at_zero s [OnResize 600; CallReset] Hconf Hrun)
    as (config & s' & l & B & Hget & _ & _ & _ & Hval & Hobj & Hl & _ & Hind).
  exists s, config, s', l. split; [exact Hrun|]. split; [exact Hget|].
  assert (value_of_options s = Some (Some false, Some [0; 100; 500])) as Hv
    by (by vm_compute).
  split; [by rewrite Hobj|]. split; [exact Hl|].
  destruct (Hind [9; 9]) as (Hsame & _). by rewrite Hsame.
Defined.

(** ** Configuring with what getConfig returned *)

(** X18.  [configure(getConfig())] on a configured tracker, at any point
    of a sequence of events, reproduces the configuration on the copy:
    the options have the same value and the bucket of the stored width
    (what [getCurrent()] would return) is active, but
    [_options.breakpoints] now refers to the array [getConfig] created,
    not to the one configured before, so what a caller writes to any
    other array no longer reaches the tracker. *)
Theorem configure_with_getConfig
    (settings : Settings) (s0 s1 s : State) (es : list event) :
  _configure settings s0 = Some s1 →
  run es s1 = Some s →
  ∃ config s' s2 l' B,
    _getConfig s = Some (config, s') ∧
    s_breakpoints config = Some l' ∧ arrays s !! l' = None ∧
    _configure config s' = Some s2 ∧
    read_breakpoints s = Some B ∧
    value_of_options s2 = value_of_options s ∧
    _currentBreakpoint s2 = determineCurrentBreakpoint (_width s) B ∧
    breakpoints (_options s2) = Some (CallerArr l') ∧
    ∀ l a, l ≠ l' → read_breakpoints (caller_write l a s2) = read_breakpoints s2.
Proof.
  intros Hconf Hrun. apply configure_inv in Hconf as (arr & Harr & ->).
  pose proof (options_are_run _ _ es _ s (configured_options_are settings arr s0) Hrun)
    as [HB Ho].
  set (B := _numericSort arr) in *.
  pose proof HB as HB0. unfold read_breakpoints in HB0.
  destruct (breakpoints (_options s)) as [r|] eqn:Hr; [|done]. cbn in HB0.
  destruct (getConfig_returns s r B Hr HB0) as [Hget Hfresh]. cbn zeta in Hget, Hfresh.
  set (l' := fresh (dom (arrays s))) in *.
  set (config := {| s_classBody := classBody (_options s); s_breakpoints := Some l' |}) in *.
  set (s' := set_arrays (<[l':=B]> (arrays s)) s) in *.
  assert (read_array s' (configured_array config) = Some B) as Hread1.
  { subst s' config. cbn. apply lookup_insert_eq. }
  assert (_numericSort B = B) as Hsorted
    by apply numericSort_sorted_id, numericSort_strongly_sorted.
  destruct (configured_fields config B s') as (_ & Hcur2 & Ho2 & Hread2 & _).
  rewrite Hsorted in Hcur2, Hread2.
  exists config, s', (configured config B s'), l', B.
  split; [exact Hget|]. split; [reflexivity|]. split; [exact Hfresh|].
  split; [by apply configure_returns|]. split; [exact HB|].
  assert (breakpoints (_options (configured config B s')) = Some (CallerArr l')) as Hb2
    by by rewrite Ho2.
  split; [|split; [exact Hcur2|split; [exact Hb2|]]].
  - rewrite (value_of_options_read s r B Hr HB0).
    rewrite (value_of_options_read (configured config B s') (CallerArr l') B Hb2 Hread2).
    rewrite Ho2. unfold merged_over_defaults at 1. subst config.
    cbn [classBody s_classBody]. rewrite Ho. reflexivity.
  - intros l a Hne. unfold read_breakpoints.
    change (_options (caller_write l a ?x)) with (_options x).
    rewrite Hb2. cbn. by apply lookup_insert_ne.
Qed.

Lemma configure_with_getConfig_witness :
  _configure (mkSettings None None) (loaded 800 ∅) = Some at_768 ∧
  run [CallReset] at_768 = Some at_768_reset ∧
  _currentBreakpoint at_768_reset = JNull ∧
  ∃ config s' s2,
    _getConfig at_768_reset = Some (config, s') ∧
    _configure config s' = Some s2 ∧
    value_of_options s2 = Some (Some true, Some default_breakpoints) ∧
    _currentBreakpoint s2 = JNum 768.
Proof.
  assert (_configure (mkSettings None None) (loaded 800 ∅) = Some at_768) as Hconf
    by (vm_compute; reflexivity).
  assert (run [CallReset] at_768 = Some at_768_reset) as Hrun by reflexivity.
  split; [exact Hconf|]. split; [exact Hrun|]. split; [reflexivity|].
  destruct (configure_with_getConfig (mkSettings None None) (loaded 800 ∅)
              at_768 at_768_reset [CallReset] Hconf Hrun)
    as (config & s' & s2 & l' & B & Hget & _ & _ & Hconf2 & HB & Hval & Hcur & _).
  exists config, s', s2. split; [exact Hget|]. split; [exact Hconf2|].
  assert (B = default_breakpoints) as ->
    by (vm_compute in HB; injection HB as <-; reflexivity).
  split; [by rewrite Hval|]. by rewrite Hcur.
Defined.

(** ** The spelling of numbers *)

(** Every integer below 2^53 in absolute value is spelled with all its
    decimal digits. *)
Lemma number_to_string_safe (n : Z) :
  - 2 ^ 53 < n < 2 ^ 53 → number_to_string n = pretty n.
Proof.
  intros Hn. unfold number_to_string, number_to_string_nonneg.
  destruct (Z.ltb_spec n 0) as [Hneg|Hpos].
  - destruct (Z.ltb_spec (- n) (2 ^ 53)) as [_|Hbig]; [|lia].
    destruct n as [|p|p]; try lia. reflexivity.
  - destruct (Z.ltb_spec n (2 ^ 53)) as [_|Hbig]; [done|lia].
Qed.

Example number_to_string_beyond_safe :
  js_to_string (JNum 768) = "768" ∧
  js_to_string (JNum (-1)) = "-1" ∧
  js_to_string (JNum (2 ^ 53 + 1)) = "9007199254740992" ∧
  js_to_string (JNum (2 ^ 60)) = "1152921504606847000" ∧
  js_to_string (JNum (10 ^ 21 - 1)) = "1e+21" ∧
  js_to_string (JNum (10 ^ 21)) = "1e+21" ∧
  js_to_string (JNum (2 ^ 70)) = "1.1805916207174113e+21" ∧
  js_to_string (JNum (- 2 ^ 64)) = "-18446744073709552000" ∧
  enter_signals (JNum (10 ^ 21)) = [("enter1e+21", JNum (10 ^ 21)); ("enter", JNum (10 ^ 21))] ∧
  class_of (JNum (10 ^ 21)) = "breakpoint-1e+21".
Proof. vm_compute. repeat split. Qed.
